(** * EurLex toolbox: a shallow embedding of the ingestion pipeline

    The development follows the Python sources file by file:
    - [eurlex_doc.py]: [EurLexFile], [EurLexDataFile], [EurLexMetaFile];
    - [eurlex_ds.py]: [EurLexItem], [EurLexDataset];
    - [parsing/location_parser.py]: [GeoRegex], [LocationParser];
    - [parsing/legbase_parser.py]: [LegBaseParser].

    Python values are modelled as follows.  A [str] is a [string] (the model
    covers ASCII text; [str.lower] and the [re.IGNORECASE] comparison act on
    the letters A-Z).  A value that may be [None] is an [option].  A raised
    exception is the [Raise] branch of [result].  A [set] literal used only
    for membership is a [gset string]; the [defaultdict(int)] returned by the
    location parser is a [gmap string nat]. *)

From Stdlib Require Import Ascii String List Bool Arith Lia.
From stdpp Require Import gmap strings list.
Import ListNotations.

Local Open Scope string_scope.
Local Open Scope list_scope.

(** ** Exceptions and results *)

Inductive exn : Type :=
| ValueError
| OSError
| TypeError
| IndexError
| KeyError
| AttributeError
| ParseError
| ReError.

Inductive result (A : Type) : Type :=
| Ok (a : A)
| Raise (e : exn).
Arguments Ok {A} a.
Arguments Raise {A} e.

Definition bind {A B} (r : result A) (k : A -> result B) : result B :=
  match r with
  | Ok a => k a
  | Raise e => Raise e
  end.

Declare Scope py_scope.
Delimit Scope py_scope with py.
Notation "'let*' x ':=' c 'in' k" := (bind c (fun x => k))
  (at level 10, x name, c at level 100, k at level 200) : py_scope.
Local Open Scope py_scope.

Definition is_ok {A} (r : result A) : bool :=
  match r with Ok _ => true | Raise _ => false end.

(** ** Strings *)

Module Str.

Definition is_upper (c : ascii) : bool :=
  let n := nat_of_ascii c in (65 <=? n)%nat && (n <=? 90)%nat.

Definition is_lower (c : ascii) : bool :=
  let n := nat_of_ascii c in (97 <=? n)%nat && (n <=? 122)%nat.

Definition is_digit (c : ascii) : bool :=
  let n := nat_of_ascii c in (48 <=? n)%nat && (n <=? 57)%nat.

Definition lower_char (c : ascii) : ascii :=
  if is_upper c then ascii_of_nat (nat_of_ascii c + 32) else c.

(** [str.lower()] *)
Fixpoint lower (s : string) : string :=
  match s with
  | EmptyString => EmptyString
  | String c s' => String (lower_char c) (lower s')
  end.

(** [s.startswith(p)] *)
Fixpoint startswith (p s : string) : bool :=
  match p, s with
  | EmptyString, _ => true
  | String a p', String b s' => Ascii.eqb a b && startswith p' s'
  | String _ _, EmptyString => false
  end.

(** [sub in s] *)
Fixpoint contains (sub s : string) : bool :=
  startswith sub s ||
  match s with
  | EmptyString => false
  | String _ s' => contains sub s'
  end.

(** [sep.join(xs)] on a list of strings *)
Fixpoint join (sep : string) (xs : list string) : string :=
  match xs with
  | [] => ""
  | [x] => x
  | x :: rest => x +:+ sep +:+ join sep rest
  end.

(** [''.join(xs)] *)
Definition concat (xs : list string) : string := fold_right String.append "" xs.

(** [s.split(sep)] for a one-character separator: always at least one field. *)
Fixpoint split_aux (sep : ascii) (cur : string) (s : string) : list string :=
  match s with
  | EmptyString => [cur]
  | String c s' =>
      if Ascii.eqb c sep then cur :: split_aux sep "" s'
      else split_aux sep (cur +:+ String c "") s'
  end.

Definition split (sep : ascii) (s : string) : list string := split_aux sep "" s.

End Str.

(** ** Paths ([pathlib.Path])

    A path is the list of its components; an absolute path starts with the
    component ["/"].  Only the operations the sources use are modelled. *)

Definition Path := list string.

Module Pathlib.

Definition is_anchor (c : string) : bool := String.eqb c "/".

(** [Path(s)]: split on the separator, drop empty and ["."] components. *)
Definition of_string (s : string) : Path :=
  let comps := filter (fun c => negb (String.eqb c "" || String.eqb c ".")) (Str.split "/" s) in
  if Str.startswith "/" s then "/" :: comps else comps.

Definition is_absolute (p : Path) : bool :=
  match p with
  | c :: _ => is_anchor c
  | [] => false
  end.

(** [p.name]: the final component, empty for the root and for [Path('.')]. *)
Definition name (p : Path) : string :=
  match rev p with
  | [] => ""
  | c :: _ => if is_anchor c then "" else c
  end.

(** [p.parent] *)
Definition parent (p : Path) : Path :=
  match rev p with
  | [] => []
  | c :: r => if is_anchor c then p else rev r
  end.

(** [p / s] *)
Definition join (p : Path) (s : string) : Path :=
  let q := of_string s in
  if is_absolute q then q else p ++ q.

(** [str(p)] *)
Definition to_string (p : Path) : string :=
  match p with
  | [] => "."
  | c :: r => if is_anchor c then "/" +:+ Str.join "/" r else Str.join "/" p
  end.

End Pathlib.

(** ** XML documents ([xml.etree.ElementTree])

    An element carries its tag, attributes, leading text, children and the
    tail text that follows its end tag. *)

#[warnings="-register-all"]
Inductive Element : Type :=
| Elem (tag : string) (attrib : list (string * string)) (text : option string)
       (children : list Element) (tail : option string).

Definition tag (e : Element) : string := let 'Elem t _ _ _ _ := e in t.
Definition attrib (e : Element) : list (string * string) := let 'Elem _ a _ _ _ := e in a.
Definition text (e : Element) : option string := let 'Elem _ _ x _ _ := e in x.
Definition children (e : Element) : list Element := let 'Elem _ _ _ c _ := e in c.
Definition tail (e : Element) : option string := let 'Elem _ _ _ _ x := e in x.

(** [elem.attrib[k]]: [KeyError] when the key is missing. *)
Fixpoint attrib_get (k : string) (a : list (string * string)) : result string :=
  match a with
  | [] => Raise KeyError
  | (k', v) :: rest => if String.eqb k k' then Ok v else attrib_get k rest
  end.

(** [if t: yield t]: a text that is [None] or empty is not yielded. *)
Definition opt_text (o : option string) : list string :=
  match o with
  | Some s => if String.eqb s "" then [] else [s]
  | None => []
  end.

(** [elem.itertext()]: the element's text, then for every child its own
    [itertext] followed by the child's tail. *)
Fixpoint itertext (e : Element) : list string :=
  let 'Elem _ _ tx cs _ := e in
  opt_text tx ++
  (fix over (l : list Element) : list string :=
     match l with
     | [] => []
     | c :: l' => itertext c ++ opt_text (tail c) ++ over l'
     end) cs.

(** [elem.findall('A/B')] restricted to the two-step child paths used in the
    sources: children tagged [a], then their children tagged [b], in
    document order. *)
Definition children_tagged (t : string) (e : Element) : list Element :=
  filter (fun c => String.eqb (tag c) t) (children e).

Definition findall2 (a b : string) (root : Element) : list Element :=
  flat_map (children_tagged b) (children_tagged a root).

(** The events [iterparse(..., events=('start', 'end'))] yields.  Each event
    carries the element as the loop body sees it. *)
Inductive event : Type :=
| Start (e : Element)
| End (e : Element).

(** Event stream of a well-formed document that reaches the parser in one
    read: by the time a [start] event is handled the whole subtree of its
    element has been built. *)
Fixpoint events_of (e : Element) : list event :=
  let 'Elem _ _ _ cs _ := e in
  Start e ::
  (fix over (l : list Element) : list event :=
     match l with
     | [] => []
     | c :: l' => events_of c ++ over l'
     end) cs ++ [End e].

(** ** The file system seen by the program

    A regular file offers two views: its text ([read_text]) and what the XML
    parser makes of it.  On a malformed document [iterparse] still yields the
    events of the well-formed prefix before it raises. *)

Inductive xml_view : Type :=
| WellFormed (root : Element)
| Malformed (seen : list event).

Record file : Type := mkFile {
  read_text : string;
  parsed : xml_view
}.

Inductive entry : Type :=
| File (f : file)
| Dir.

Definition filesystem := list (Path * entry).

Definition path_eqb (p q : Path) : bool := bool_decide (p = q).

Fixpoint fs_lookup (fs : filesystem) (p : Path) : option entry :=
  match fs with
  | [] => None
  | (q, e) :: rest => if path_eqb p q then Some e else fs_lookup rest p
  end.

(** [p.exists()], [p.is_file()] *)
Definition exists_ (fs : filesystem) (p : Path) : bool :=
  match fs_lookup fs p with Some _ => true | None => false end.

Definition is_file (fs : filesystem) (p : Path) : option file :=
  match fs_lookup fs p with Some (File f) => Some f | _ => None end.

(** [ET.parse(p)] on an existing file. *)
Definition ET_parse (fs : filesystem) (p : Path) : result Element :=
  match is_file fs p with
  | Some f =>
      match parsed f with
      | WellFormed root => Ok root
      | Malformed _ => Raise ParseError
      end
  | None => Raise OSError
  end.

(** [for event, elem in iterparse(p, ...)]: run [body] over the events; a
    malformed document raises once its well-formed prefix is consumed. *)
Fixpoint for_events {S} (body : S -> event -> result S) (st : S) (evs : list event)
  : result S :=
  match evs with
  | [] => Ok st
  | ev :: rest => let* st' := body st ev in for_events body st' rest
  end.

Definition iterparse {S} (fs : filesystem) (p : Path)
    (body : S -> event -> result S) (st : S) : result S :=
  match is_file fs p with
  | Some f =>
      match parsed f with
      | WellFormed root => for_events body st (events_of root)
      | Malformed seen => let* _ := for_events body st seen in Raise ParseError
      end
  | None => Raise OSError
  end.

(** ** [EurLexFile] *)

(** [EurLexFile.__init__]: the argument must be a [Path] ([None] stands for
    any other value) and must name an existing file. *)
Definition EurLexFile_init (fs : filesystem) (file_path : option Path) : result Path :=
  match file_path with
  | None => Raise ValueError
  | Some p =>
      match is_file fs p with
      | None => Raise OSError
      | Some _ => Ok p
      end
  end.

(** ** [EurLexMetaFile] *)

Record MetaFile : Type := mkMeta {
  file_path : Path;
  authors : list string;
  coll : option string;
  com : option string;
  legval : option string;
  title : string;
  main_pub : option Path;
  sub_pubs : list Path
}.

Definition set_authors (m : MetaFile) (v : list string) : MetaFile :=
  mkMeta (file_path m) v (coll m) (com m) (legval m) (title m) (main_pub m) (sub_pubs m).
Definition set_coll (m : MetaFile) (v : option string) : MetaFile :=
  mkMeta (file_path m) (authors m) v (com m) (legval m) (title m) (main_pub m) (sub_pubs m).
Definition set_com (m : MetaFile) (v : option string) : MetaFile :=
  mkMeta (file_path m) (authors m) (coll m) v (legval m) (title m) (main_pub m) (sub_pubs m).
Definition set_legval (m : MetaFile) (v : option string) : MetaFile :=
  mkMeta (file_path m) (authors m) (coll m) (com m) v (title m) (main_pub m) (sub_pubs m).
Definition set_title (m : MetaFile) (v : string) : MetaFile :=
  mkMeta (file_path m) (authors m) (coll m) (com m) (legval m) v (main_pub m) (sub_pubs m).
Definition set_main_pub (m : MetaFile) (v : option Path) : MetaFile :=
  mkMeta (file_path m) (authors m) (coll m) (com m) (legval m) (title m) v (sub_pubs m).
Definition set_sub_pubs (m : MetaFile) (v : list Path) : MetaFile :=
  mkMeta (file_path m) (authors m) (coll m) (com m) (legval m) (title m) (main_pub m) v.

(** The attributes as set before the parsing loop. *)
Definition meta_blank (p : Path) : MetaFile :=
  mkMeta p [] None None None "" None [].

(** [path[-2]] *)
Definition index_neg2 (path : list string) : result string :=
  match rev path with
  | _ :: x :: _ => Ok x
  | _ => Raise IndexError
  end.

(** [path.pop()] *)
Definition pop (path : list string) : result (list string) :=
  match rev path with
  | _ :: r => Ok (rev r)
  | [] => Raise IndexError
  end.

(** [x in path] *)
Definition in_path (x : string) (path : list string) : bool :=
  existsb (String.eqb x) path.

(** The [start] branch of the parsing loop. *)
Definition meta_on_start (m : MetaFile) (path : list string) (elem : Element)
  : result (MetaFile * list string) :=
  let path := path ++ [tag elem] in
  if String.eqb (tag elem) "TITLE" && in_path "PAPER" path
  then Ok (set_title m (fold_left String.append (itertext elem) (title m)), path)
  else Ok (m, path).

(** The [end] branch of the parsing loop. *)
Definition meta_on_end (m : MetaFile) (path : list string) (elem : Element)
  : result (MetaFile * list string) :=
  let* m' :=
    (match String.eqb (tag elem) "AUTHOR", text elem with
     | true, Some a => Ok (set_authors m (authors m ++ [a]))
     | _, _ =>
       if String.eqb (tag elem) "COM" then Ok (set_com m (text elem))
       else if String.eqb (tag elem) "COLL" then Ok (set_coll m (text elem))
       else if String.eqb (tag elem) "LEGAL.VALUE" then
         let* parent := index_neg2 path in
         if String.eqb parent "DOC.MAIN.PUB" then Ok (set_legval m (text elem)) else Ok m
       else if String.eqb (tag elem) "REF.PHYS" then
         let* parent := index_neg2 path in
         if String.eqb parent "DOC.MAIN.PUB" then
           let* f := attrib_get "FILE" (attrib elem) in
           Ok (set_main_pub m (Some (Pathlib.join (Pathlib.parent (file_path m)) f)))
         else if String.eqb parent "DOC.SUB.PUB" then
           let* f := attrib_get "FILE" (attrib elem) in
           Ok (set_sub_pubs m (sub_pubs m ++ [Pathlib.join (Pathlib.parent (file_path m)) f]))
         else Ok m
       else Ok m
     end) in
  let* path' := pop path in
  Ok (m', path').

Definition meta_step (st : MetaFile * list string) (ev : event)
  : result (MetaFile * list string) :=
  match ev with
  | Start elem => meta_on_start (fst st) (snd st) elem
  | End elem => meta_on_end (fst st) (snd st) elem
  end.

(** [EurLexMetaFile.__init__] *)
Definition EurLexMetaFile_init (fs : filesystem) (file_path : option Path) : result MetaFile :=
  let* p := EurLexFile_init fs file_path in
  let* st := iterparse fs p meta_step (meta_blank p, []) in
  Ok (fst st).

(** [sep.join(items)] where an item may be [None]: [str.join] raises
    [TypeError] on the first item that is not a string. *)
Fixpoint all_str (items : list (option string)) : result (list string) :=
  match items with
  | [] => Ok []
  | Some s :: rest => let* r := all_str rest in Ok (s :: r)
  | None :: _ => Raise TypeError
  end.

Definition py_join (sep : string) (items : list (option string)) : result string :=
  let* xs := all_str items in Ok (Str.join sep xs).

(** [EurLexMetaFile.__str__] *)
Definition EurLexMetaFile_str (m : MetaFile) : result string :=
  let authors_str := Str.join "_" (authors m) in
  let coll_str := coll m in
  let legval_str := match legval m with Some v => v | None => "None" end in
  py_join "," [Some (Pathlib.to_string (file_path m)); Some authors_str; coll_str; Some legval_str].

Definition DEC_CODES : gset string :=
  {[ "DEC"; "DEC.EEA"; "DEC_IMPL"; "DECIMP"; "DEC_DEL"; "DECDEL"; "DECIMPL" ]}.

(** [EurLexMetaFile.is_dec] *)
Definition is_dec (m : MetaFile) : bool :=
  match legval m with
  | Some v => bool_decide (v ∈ DEC_CODES)
  | None => false
  end.

(** ** Dates ([datetime.strptime] and [strftime]) *)

Module Datetime.

Record date : Type := mkDate { year : nat; month : nat; day : nat }.

Definition digit (c : ascii) : option nat :=
  if Str.is_digit c then Some (nat_of_ascii c - 48) else None.

(** A digit within [lo, hi]. *)
Definition digit_in (lo hi : nat) (c : ascii) : option nat :=
  match digit c with
  | Some n => if (lo <=? n)%nat && (n <=? hi)%nat then Some n else None
  | None => None
  end.

(** One alternative of a directive's pattern: the value it reads and the
    rest of the input. *)
Definition alt := string -> option (nat * string).

Definition two (first : ascii -> option nat) (second : ascii -> option nat)
    (val : nat -> nat -> nat) : alt :=
  fun s =>
    match s with
    | String a (String b rest) =>
        match first a, second b with
        | Some x, Some y => Some (val x y, rest)
        | _, _ => None
        end
    | _ => None
    end.

Definition one (first : ascii -> option nat) : alt :=
  fun s =>
    match s with
    | String a rest =>
        match first a with
        | Some x => Some (x, rest)
        | None => None
        end
    | _ => None
    end.

Definition space (c : ascii) : option nat :=
  if Ascii.eqb c " " then Some 0 else None.

Definition dec (x y : nat) : nat := 10 * x + y.

(** [%Y] is [\d\d\d\d]. *)
Definition directive_Y : alt :=
  fun s =>
    match s with
    | String a (String b (String c (String d rest))) =>
        match digit a, digit b, digit c, digit d with
        | Some x, Some y, Some z, Some w => Some (1000 * x + 100 * y + 10 * z + w, rest)
        | _, _, _, _ => None
        end
    | _ => None
    end.

(** [%m] is [1[0-2]|0[1-9]|[1-9]], tried in this order. *)
Definition directive_m : list alt :=
  [ two (digit_in 1 1) (digit_in 0 2) dec;
    two (digit_in 0 0) (digit_in 1 9) dec;
    one (digit_in 1 9) ].

(** [%d] is [3[0-1]|[1-2]\d|0[1-9]|[1-9]| [1-9]], tried in this order. *)
Definition directive_d : list alt :=
  [ two (digit_in 3 3) (digit_in 0 1) dec;
    two (digit_in 1 2) digit dec;
    two (digit_in 0 0) (digit_in 1 9) dec;
    one (digit_in 1 9);
    two space (digit_in 1 9) dec ].

(** Backtracking over the alternatives of one directive: the first
    alternative whose continuation succeeds. *)
Fixpoint first_alt {A} (alts : list alt) (s : string)
    (k : nat -> string -> option A) : option A :=
  match alts with
  | [] => None
  | a :: rest =>
      match a s with
      | Some (v, s') =>
          match k v s' with
          | Some r => Some r
          | None => first_alt rest s k
          end
      | None => first_alt rest s k
      end
  end.

(** [format_regex.match(data_string)] for the format [%Y%m%d]: the fields
    and the unconverted rest. *)
Definition regex_match (s : string) : option (date * string) :=
  match directive_Y s with
  | Some (y, s1) =>
      first_alt directive_m s1 (fun m s2 =>
        first_alt directive_d s2 (fun d s3 => Some (mkDate y m d, s3)))
  | None => None
  end.

Definition is_leap (y : nat) : bool :=
  (y mod 4 =? 0)%nat && (negb (y mod 100 =? 0)%nat || (y mod 400 =? 0)%nat).

Definition days_in_month (y m : nat) : nat :=
  match m with
  | 2 => if is_leap y then 29 else 28
  | 4 | 6 | 9 | 11 => 30
  | _ => 31
  end.

(** The range check of the [date] constructor: years 1 to 9999. *)
Definition valid (d : date) : bool :=
  (1 <=? year d)%nat && (year d <? 100 * 100)%nat &&
  (1 <=? month d)%nat && (month d <=? 12)%nat &&
  (1 <=? day d)%nat && (day d <=? days_in_month (year d) (month d))%nat.

(** [datetime.strptime(d, '%Y%m%d')]; [None] is not a string. *)
Definition strptime (d : option string) : result date :=
  match d with
  | None => Raise TypeError
  | Some s =>
      match regex_match s with
      | None => Raise ValueError
      | Some (dt, rest) =>
          if negb (String.eqb rest "") then Raise ValueError
          else if valid dt then Ok dt else Raise ValueError
      end
  end.

Definition digit_char (n : nat) : ascii := ascii_of_nat (48 + n mod 10).

Definition digits2 (n : nat) : string :=
  String (digit_char (n / 10)) (String (digit_char n) "").

Definition digits4 (n : nat) : string :=
  String (digit_char (n / 1000)) (String (digit_char (n / 100))
    (String (digit_char (n / 10)) (String (digit_char n) ""))).

(** Decimal form without padding, for a number below 10000. *)
Definition digits (n : nat) : string :=
  if (n <? 10)%nat then String (digit_char n) ""
  else if (n <? 100)%nat then digits2 n
  else if (n <? 1000)%nat then String (digit_char (n / 100)) (digits2 n)
  else digits4 n.

(** [dt.strftime('%Y/%m/%d')].  Whether [%Y] pads a year below 1000 to
    four digits is decided by the C library; [pads_year] records it. *)
Definition strftime (pads_year : bool) (d : date) : string :=
  (if pads_year then digits4 (year d) else digits (year d))
    +:+ "/" +:+ digits2 (month d) +:+ "/" +:+ digits2 (day d).

End Datetime.

(** ** Regular expressions: the fragment [GeoRegex] builds

    Patterns are sequences of literal characters, the word boundary [\b] and
    negative look-around groups [(?<!lit)] and [(?!lit)] over literals.  A
    pattern with any other metacharacter is outside the fragment and is
    rejected. *)

Module Re.

Inductive atom : Type :=
| Lit (c : ascii)
| WordB
| NegLookbehind (s : string)
| NegLookahead (s : string).

Definition pattern := list atom.

Definition is_meta (c : ascii) : bool :=
  existsb (Ascii.eqb c) (list_ascii_of_string ".^$*+?{}[]\|()").

Inductive mode : Type :=
| Top
| InLookbehind (acc : string)
| InLookahead (acc : string).

(** Parser of the fragment: [\b], [(?<!lit)], [(?!lit)], and any
    character that is not a metacharacter. *)
Fixpoint parse (md : mode) (s : string) : result pattern :=
  match md, s with
  | Top, EmptyString => Ok []
  | Top, String c1 rest1 =>
      if Ascii.eqb c1 "\" then
        match rest1 with
        | String c2 rest2 =>
            if Ascii.eqb c2 "b"
            then let* p := parse Top rest2 in Ok (WordB :: p)
            else Raise ReError
        | EmptyString => Raise ReError
        end
      else if Ascii.eqb c1 "(" then
        match rest1 with
        | String c2 (String c3 rest3) =>
            if Ascii.eqb c2 "?" && Ascii.eqb c3 "!" then parse (InLookahead "") rest3
            else if Ascii.eqb c2 "?" && Ascii.eqb c3 "<" then
              match rest3 with
              | String c4 rest4 =>
                  if Ascii.eqb c4 "!" then parse (InLookbehind "") rest4
                  else Raise ReError
              | EmptyString => Raise ReError
              end
            else Raise ReError
        | _ => Raise ReError
        end
      else if is_meta c1 then Raise ReError
      else let* p := parse Top rest1 in Ok (Lit c1 :: p)
  | InLookbehind acc, EmptyString => Raise ReError
  | InLookbehind acc, String c rest =>
      if Ascii.eqb c ")" then let* p := parse Top rest in Ok (NegLookbehind acc :: p)
      else if is_meta c then Raise ReError
      else parse (InLookbehind (acc +:+ String c "")) rest
  | InLookahead acc, EmptyString => Raise ReError
  | InLookahead acc, String c rest =>
      if Ascii.eqb c ")" then let* p := parse Top rest in Ok (NegLookahead acc :: p)
      else if is_meta c then Raise ReError
      else parse (InLookahead (acc +:+ String c "")) rest
  end.

Record compiled : Type := mkCompiled { atoms : pattern; ignorecase : bool }.

(** [re.compile(pattern, flags)] where [flags] is [re.IGNORECASE] or 0. *)
Definition compile (pat : string) (ignore_case : bool) : result compiled :=
  let* p := parse Top pat in Ok (mkCompiled p ignore_case).

Definition is_word (c : ascii) : bool :=
  Str.is_upper c || Str.is_lower c || Str.is_digit c || Ascii.eqb c "_".

Definition char_eq (ic : bool) (a b : ascii) : bool :=
  if ic then Ascii.eqb (Str.lower_char a) (Str.lower_char b) else Ascii.eqb a b.

(** Is [lit] a prefix of [l], under the flag? *)
Fixpoint prefix_of (ic : bool) (lit l : list ascii) : bool :=
  match lit, l with
  | [], _ => true
  | a :: lit', b :: l' => char_eq ic a b && prefix_of ic lit' l'
  | _ :: _, [] => false
  end.

Definition head_is_word (l : list ascii) : bool :=
  match l with
  | c :: _ => is_word c
  | [] => false
  end.

(** Match the atoms at the current position.  [before] is the text to the
    left of the position, nearest character first; [after] is the text to
    the right.  The result is the number of characters consumed. *)
Fixpoint match_here (ic : bool) (p : pattern) (before after : list ascii) : option nat :=
  match p with
  | [] => Some 0
  | Lit c :: p' =>
      match after with
      | d :: after' =>
          if char_eq ic c d
          then option_map S (match_here ic p' (d :: before) after')
          else None
      | [] => None
      end
  | WordB :: p' =>
      if xorb (head_is_word before) (head_is_word after)
      then match_here ic p' before after else None
  | NegLookbehind s :: p' =>
      if prefix_of ic (rev (list_ascii_of_string s)) before
      then None else match_here ic p' before after
  | NegLookahead s :: p' =>
      if prefix_of ic (list_ascii_of_string s) after
      then None else match_here ic p' before after
  end.

(** Left-to-right scan for non-overlapping matches.  [skip] counts the
    characters still covered by the previous match; [pos] is the index of
    the current position.  The spans found are [(start, end)] pairs. *)
Fixpoint scan (ic : bool) (p : pattern) (skip pos : nat) (before after : list ascii)
  : list (nat * nat) :=
  match skip with
  | S k =>
      match after with
      | c :: after' => scan ic p k (S pos) (c :: before) after'
      | [] => []
      end
  | O =>
      match match_here ic p before after with
      | Some n =>
          (pos, pos + n) ::
          match after with
          | c :: after' => scan ic p (Nat.pred n) (S pos) (c :: before) after'
          | [] => []
          end
      | None =>
          match after with
          | c :: after' => scan ic p 0 (S pos) (c :: before) after'
          | [] => []
          end
      end
  end.

(** [regex.finditer(text)], as the list of match spans. *)
Definition finditer (r : compiled) (text : string) : list (nat * nat) :=
  scan (ignorecase r) (atoms r) 0 0 [] (list_ascii_of_string text).

End Re.

(** ** External collaborators

    The regular-expression engine, the NLTK-backed tokenizer and the C
    library's treatment of [%Y] are not part of the repository; the pipeline
    is written against this interface. *)

Class Platform : Type := {
  re_pattern : Type;
  (** [re.compile(pattern, flags)]; the flag is [re.IGNORECASE] *)
  re_compile : string -> bool -> result re_pattern;
  (** [list(regex.finditer(text))], as match spans *)
  re_finditer : re_pattern -> string -> list (nat * nat);
  (** [Tokenizer(filter_stopwords=True, check_is_alpha=True).__call__] *)
  tokenizer_call : string -> list string;
  strftime_pads_year : bool
}.

(** ** [parsing/legbase_parser.py] *)

(** The loop body of [LegBaseParser.extract_legal_bases]. *)
Definition legbase_step (legal_bases : list string) (ev : event) : result (list string) :=
  match ev with
  | Start elem =>
      if String.eqb (tag elem) "VISA"
      then Ok (legal_bases ++ [fold_left String.append (itertext elem) ""])
      else Ok legal_bases
  | End _ => Ok legal_bases
  end.

Definition extract_legal_bases (fs : filesystem) (file_path : Path) : result (list string) :=
  iterparse fs file_path legbase_step [].

(** ** [parsing/location_parser.py] *)

Definition non_empty (s : string) : bool := negb (String.eqb s "").

(** A [dict] with string keys in insertion order: assigning to an existing key
    replaces its value in place. *)
Fixpoint dict_set {V} (k : string) (v : V) (d : list (string * V)) : list (string * V) :=
  match d with
  | [] => [(k, v)]
  | (k', v') :: rest =>
      if String.eqb k k' then (k, v) :: rest else (k', v') :: dict_set k v rest
  end.

(** [{line[0]: line[1:] for line in lines}]; [line[0]] of an empty row raises. *)
Fixpoint geo_dict_of (lines : list (list string)) (d : list (string * list string))
  : result (list (string * list string)) :=
  match lines with
  | [] => Ok d
  | [] :: _ => Raise IndexError
  | (key :: names) :: rest => geo_dict_of rest (dict_set key names d)
  end.

(** [read_geo_table] *)
Definition read_geo_table (fs : filesystem) (table_file : Path) (sep : ascii) (comment : string)
  : result (list (string * list string)) :=
  match is_file fs table_file with
  | None => Raise OSError
  | Some f =>
      let lines := Str.split "010" (read_text f) in
      let lines := filter (fun l => negb (Str.startswith comment l)) lines in
      let lines := filter non_empty lines in
      let lines := map (fun l => filter non_empty (Str.split sep l)) lines in
      geo_dict_of lines []
  end.

(** [GeoRegex._preprocess]: the curated overrides. *)
Definition conversion_dict : list (string * string) :=
  [ ("Balkans", "(?<!Western )Balkans");
    ("Sudan", "(?<!South )Sudan");
    ("Mediterranean", "(?<!Southern )Mediterranean");
    ("Vatican", "Vatican(?! City)");
    ("Czech", "Czech(?! Republic)");
    ("Swiss", "Swiss(?! Confederation)");
    ("Palestinian", "Palestinian(?! Territor)") ].

Fixpoint dict_get (k : string) (d : list (string * string)) (default : string) : string :=
  match d with
  | [] => default
  | (k', v) :: rest => if String.eqb k k' then v else dict_get k rest default
  end.

Definition _preprocess (name : string) : string := dict_get name conversion_dict name.

Section Locations.

Context `{P : Platform}.

Record GeoRegex : Type := mkGeoRegex {
  plain_name : string;
  pattern : string;
  flags : bool;
  regex : re_pattern
}.

(** [GeoRegex.__init__] *)
Definition GeoRegex_init (geo_name : string) (whole_word ignore_case : bool)
  : result GeoRegex :=
  let pat := _preprocess geo_name in
  let pat := if whole_word then "\b" +:+ pat +:+ "\b" else pat in
  let* r := re_compile pat ignore_case in
  Ok (mkGeoRegex geo_name pat ignore_case r).

(** [list(regex.finditer(text))] *)
Definition GeoRegex_finditer (g : GeoRegex) (text : string) : list (nat * nat) :=
  re_finditer (regex g) text.

(** [[GeoRegex(name) for name in all_geo_names]] *)
Fixpoint compile_all (names : list string) : result (list GeoRegex) :=
  match names with
  | [] => Ok []
  | n :: rest =>
      let* g := GeoRegex_init n true true in
      let* gs := compile_all rest in
      Ok (g :: gs)
  end.

(** [[name for country in geo_dict.values() for name in country]] *)
Definition all_geo_names (geo_dict : list (string * list string)) : list string :=
  flat_map snd geo_dict.

(** [LocationParser.__init__] from an already loaded table.  The order in
    which [list(set(...))] lists the names is whatever the set yields. *)
Definition LocationParser_of_dict (geo_dict : list (string * list string))
  : result (list GeoRegex) :=
  let names : gset string := list_to_set (all_geo_names geo_dict) in
  compile_all (elements names).

(** [LocationParser.__init__]; the object is its list [regexes]. *)
Definition LocationParser_init (fs : filesystem) (geo_info_file : Path)
  : result (list GeoRegex) :=
  let* geo_dict := read_geo_table fs geo_info_file "," "#" in
  LocationParser_of_dict geo_dict.

(** One round of the loop in [LocationParser.__call__]. *)
Definition count_one (text : string) (locations : gmap string nat) (g : GeoRegex)
  : gmap string nat :=
  let matches := GeoRegex_finditer g text in
  match matches with
  | [] => locations
  | _ :: _ =>
      <[plain_name g := default 0 (locations !! plain_name g) + length matches]> locations
  end.

(** [LocationParser.__call__] *)
Definition LocationParser_call (regexes : list GeoRegex) (text : string)
  : gmap string nat :=
  fold_left (count_one text) regexes ∅.

End Locations.

(** ** [EurLexDataFile], [EurLexItem] and [EurLexDataset] *)

Record DataFile : Type := mkData {
  data_file_path : Path;
  legal_bases : list string;
  data_text : string;
  dates : list string;
  tokens : list string;
  locations : gmap string nat
}.

Definition MANUALLY_SELECTED : gset string :=
  {[ "L_2009009EN.01005101.doc.xml"; "L_2010201EN.01003001.doc.xml";
     "L_2014014EN.01000101.doc.xml"; "L_2014205EN.01000201.doc.xml";
     "L_2016074EN.01000101.doc.xml"; "L_2016300EN.01000101.doc.xml";
     "L_2017328EN.01003201.doc.xml" ]}.

Definition CFSP_AUTHORS : gset string := {[ "PSC"; "EEAS"; "PESC" ]}.

(** [lines[i]] for the first element only. *)
Definition index0 (l : list string) : result string :=
  match l with
  | x :: _ => Ok x
  | [] => Raise IndexError
  end.

(** [str(x)] inside an f-string, for a value that may be [None]. *)
Definition fstr (o : option string) : string :=
  match o with Some s => s | None => "None" end.

Module Text.

Definition is_space (c : ascii) : bool :=
  let n := nat_of_ascii c in
  ((9 <=? n)%nat && (n <=? 13)%nat) || ((28 <=? n)%nat && (n <=? 32)%nat).

Fixpoint lstrip (s : string) : string :=
  match s with
  | String c s' => if is_space c then lstrip s' else s
  | EmptyString => EmptyString
  end.

Definition rev (s : string) : string :=
  string_of_list_ascii (List.rev (list_ascii_of_string s)).

(** [s.strip()] *)
Definition strip (s : string) : string := rev (lstrip (rev (lstrip s))).

(** [s.endswith(suffix)] *)
Definition endswith (suffix s : string) : bool := Str.startswith (rev suffix) (rev s).

(** The lines of [f.readlines()], without their newline. *)
Definition readlines (s : string) : list string :=
  match List.rev (Str.split "010" s) with
  | last :: firsts => if String.eqb last "" then List.rev firsts else List.rev (last :: firsts)
  | [] => []
  end.

End Text.

(** Is [root] a proper ancestor of [p]? *)
Fixpoint strictly_under (root p : Path) : bool :=
  match root, p with
  | [], _ :: _ => true
  | r :: root', c :: p' => String.eqb r c && strictly_under root' p'
  | _, [] => false
  end.

Section Pipeline.

Context `{P : Platform}.

(** [[datetime.strptime(d, '%Y%m%d').strftime('%Y/%m/%d') for d in dates]] *)
Fixpoint format_dates (ds : list (option string)) : result (list string) :=
  match ds with
  | [] => Ok []
  | d :: rest =>
      let* dt := Datetime.strptime d in
      let* r := format_dates rest in
      Ok (Datetime.strftime strftime_pads_year dt :: r)
  end.

(** The [try ... except ValueError] around the date formatting. *)
Definition normalise_dates (ds : list (option string)) : result (list string) :=
  match format_dates ds with
  | Raise ValueError => Ok ["None"]
  | r => r
  end.

(** [EurLexDataFile.__init__].  [Ok None] is the instance left without any
    attribute by the early [return]. *)
Definition EurLexDataFile_init (fs : filesystem) (file_path : option Path)
    (tokenizer : bool) (legbase_parser : bool) (loc_parser : option (list GeoRegex))
  : result (option DataFile) :=
  match EurLexFile_init fs file_path with
  | Raise OSError => Ok None
  | Raise e => Raise e
  | Ok p =>
      let* bases := (if legbase_parser then extract_legal_bases fs p else Ok []) in
      let* root := ET_parse fs p in
      let txt := Str.join (String "010" "") (itertext root) in
      let ds := map text (findall2 "BIB.INSTANCE" "DATE" root) in
      let* ds' := normalise_dates ds in
      let toks := if tokenizer then tokenizer_call txt else [] in
      let locs := match loc_parser with
                  | Some lp => LocationParser_call lp txt
                  | None => ∅
                  end in
      Ok (Some (mkData p bases txt ds' toks locs))
  end.

Record EurLexItem : Type := mkItem {
  meta : MetaFile;
  main_doc : option DataFile;
  sub_docs : option (list (option DataFile))
}.

(** [self.main_doc.dates[0]] *)
Definition date (it : EurLexItem) : result string :=
  match main_doc it with
  | None => Raise AttributeError
  | Some d => index0 (dates d)
  end.

(** [EurLexItem.__str__] *)
Definition EurLexItem_str (it : EurLexItem) : result string :=
  let* meta_str := EurLexMetaFile_str (meta it) in
  let* data_str := date it in
  Ok (Str.join "," [meta_str; data_str]).

(** [EurLexItem.is_cfsp] *)
Definition is_cfsp (it : EurLexItem) : bool :=
  let valid_cfsp := false in
  let valid_cfsp :=
    if bool_decide (Pathlib.name (file_path (meta it)) ∈ MANUALLY_SELECTED)
    then true else valid_cfsp in
  let valid_cfsp :=
    if Str.contains "cfsp" (Str.lower (title (meta it))) then true else valid_cfsp in
  let valid_cfsp :=
    if bool_decide (com (meta it) = Some "CFSP") then true else valid_cfsp in
  fold_left (fun valid_cfsp author =>
               if bool_decide (author ∈ CFSP_AUTHORS) then true else valid_cfsp)
            (authors (meta it)) valid_cfsp.

(** [EurLexItem.to_txt] *)
Definition to_txt (it : EurLexItem) : result string :=
  let nl2 := String "010" (String "010" "") in
  let txt := "" in
  let txt := txt +:+ "FILE_PATH: " +:+ Pathlib.to_string (file_path (meta it)) +:+ nl2 in
  let* d := date it in
  let txt := txt +:+ "DATE: " +:+ d +:+ nl2 in
  let txt := txt +:+ "TITLE: " +:+ title (meta it) +:+ nl2 in
  let txt := txt +:+ "LEGVAL: " +:+ fstr (legval (meta it)) +:+ nl2 in
  let txt := txt +:+ "COLL: " +:+ fstr (coll (meta it)) +:+ nl2 in
  let txt := fold_left (fun txt author => txt +:+ "AUTHOR: " +:+ author +:+ nl2)
                       (authors (meta it)) txt in
  match main_doc it with
  | None => Raise AttributeError
  | Some doc =>
      let txt := txt +:+ "TEXT: " +:+ data_text doc +:+ nl2 in
      let txt := txt +:+ "TOKENS: " +:+ Str.join " " (tokens doc) +:+ nl2 in
      Ok txt
  end.

(** [EurLexDataset._list_meta_files] *)
Definition _list_meta_files (fs : filesystem) (data_root : Path) : result (list Path) :=
  match fs_lookup fs data_root with
  | None => Raise OSError
  | Some (File f) =>
      Ok (map (fun l => Pathlib.of_string (Text.strip l)) (Text.readlines (read_text f)))
  | Some Dir =>
      Ok (filter (fun p => strictly_under data_root p
                           && Text.endswith ".doc.xml" (Pathlib.name p))
                 (map fst fs))
  end.

(** The loop of [EurLexDataset.__init__] over [file_list]. *)
Fixpoint load_items (fs : filesystem) (tokenizer legbase_parser : bool)
    (loc_parser : option (list GeoRegex)) (file_list : list Path)
    (items : list EurLexItem) : result (list EurLexItem) :=
  match file_list with
  | [] => Ok items
  | f :: rest =>
      let* meta_doc := EurLexMetaFile_init fs (Some f) in
      if is_dec meta_doc then
        let* main_doc := EurLexDataFile_init fs (main_pub meta_doc)
                           tokenizer legbase_parser loc_parser in
        let sub_docs := None in
        let item := mkItem meta_doc main_doc sub_docs in
        if is_cfsp item
        then load_items fs tokenizer legbase_parser loc_parser rest (items ++ [item])
        else load_items fs tokenizer legbase_parser loc_parser rest items
      else load_items fs tokenizer legbase_parser loc_parser rest items
  end.

Record EurLexDataset : Type := mkDataset {
  data_root : Path;
  file_list : list Path;
  items : list EurLexItem
}.

(** [EurLexDataset.__init__] *)
Definition EurLexDataset_init (fs : filesystem) (data_root : Path)
    (tokenize parse_legal_bases parse_locations : bool) : result EurLexDataset :=
  let* file_list := _list_meta_files fs data_root in
  let* loc_parser :=
    (if parse_locations
     then let* lp := LocationParser_init fs (Pathlib.of_string "./data/geo_info.csv") in
          Ok (Some lp)
     else Ok None) in
  let* items := load_items fs tokenize parse_legal_bases loc_parser file_list [] in
  Ok (mkDataset data_root file_list items).

(** [[f(it) for it in items]] where [f] may raise. *)
Fixpoint map_result {A B} (f : A -> result B) (l : list A) : result (list B) :=
  match l with
  | [] => Ok []
  | x :: rest =>
      let* y := f x in
      let* ys := map_result f rest in
      Ok (y :: ys)
  end.

Inductive dump_mode : Type := headers | text_mode.

(** [EurLexDataset.dump_to_txt]: the text handed to the output file. *)
Definition dump_to_txt (ds : EurLexDataset) (mode : dump_mode) : result string :=
  match mode with
  | headers =>
      let* lines := map_result EurLexItem_str (items ds) in
      Ok (Str.join (String "010" "") lines)
  | text_mode =>
      let nl := String "010" "" in
      let sep := nl +:+ nl +:+ "%%%%%%%%%%%%%%%%%%%%%%%%%%%%%%%%%%%%%%%%%%%%%%%%%%" +:+ nl +:+ nl +:+ nl in
      let* blocks := map_result to_txt (items ds) in
      Ok (Str.join sep blocks)
  end.

End Pipeline.

(** ** A concrete platform

    The regular-expression fragment of [Re] as the engine; the tokenizer and
    the padding of [%Y] stay parameters. *)

Definition fragment_platform (tok : string -> list string) (pads : bool) : Platform :=
  {| re_pattern := Re.compiled;
     re_compile := Re.compile;
     re_finditer := Re.finditer;
     tokenizer_call := tok;
     strftime_pads_year := pads |}.

Definition no_tokens (s : string) : list string := [].

Definition demo_platform : Platform := fragment_platform no_tokens true.

(** * Reference definitions for the statements

    The sets the classifier tests against, spelled out as lists. *)

Definition decision_codes : list string :=
  ["DEC"; "DEC.EEA"; "DEC_IMPL"; "DECIMP"; "DEC_DEL"; "DECDEL"; "DECIMPL"].

Definition manually_selected_names : list string :=
  [ "L_2009009EN.01005101.doc.xml"; "L_2010201EN.01003001.doc.xml";
    "L_2014014EN.01000101.doc.xml"; "L_2014205EN.01000201.doc.xml";
    "L_2016074EN.01000101.doc.xml"; "L_2016300EN.01000101.doc.xml";
    "L_2017328EN.01003201.doc.xml" ].

Definition cfsp_author_codes : list string := ["PSC"; "EEAS"; "PESC"].

(** ** Sample records *)

(** A decision by the PSC whose metadata carries no [COLL] element. *)
Definition meta_without_coll : MetaFile :=
  mkMeta ["corpus"; "L_2011100EN.01000101.doc.xml"] ["PSC"] None (Some "CFSP")
         (Some "DEC") "Political and Security Committee Decision"
         (Some ["corpus"; "L_2011100EN.01000101.xml"]) [].

Definition body_2011 : DataFile :=
  mkData ["corpus"; "L_2011100EN.01000101.xml"] [] "Article 1" ["2011/04/13"] [] ∅.

Definition item_without_coll : EurLexItem :=
  mkItem meta_without_coll (Some body_2011) None.

Definition dataset_without_coll : EurLexDataset :=
  mkDataset ["corpus"] [file_path meta_without_coll] [item_without_coll].

(** ** The legal value, read off the document tree

    The texts of the [LEGAL.VALUE] elements whose parent element is
    [DOC.MAIN.PUB], in the order in which the elements close.  [parent] is
    the tag of the element enclosing [e], if any. *)
Fixpoint main_legvals (parent : option string) (e : Element) : list (option string) :=
  let 'Elem t _ tx cs _ := e in
  (fix over (l : list Element) : list (option string) :=
     match l with
     | [] => []
     | c :: l' => main_legvals (Some t) c ++ over l'
     end) cs
  ++ (if String.eqb t "LEGAL.VALUE" && bool_decide (parent = Some "DOC.MAIN.PUB")
      then [tx] else []).

(** The value a variable holds after the assignments [vs], starting from [v0]. *)
Definition last_assigned {A} (v0 : A) (vs : list A) : A := List.last vs v0.

(** A metadata document with a [LEGAL.VALUE] under the main publication and
    another one under a sub-publication. *)
Definition doc_main_and_sub : Element :=
  Elem "DOC" [] None
    [ Elem "DOC.MAIN.PUB" [] None
        [ Elem "LEGAL.VALUE" [] (Some "DEC") [] None;
          Elem "REF.PHYS" [("FILE", "L_2011100EN.01000101.xml")] None [] None ] None;
      Elem "DOC.SUB.PUB" [] None
        [ Elem "LEGAL.VALUE" [] (Some "REG") [] None;
          Elem "REF.PHYS" [("FILE", "L_2011100EN.01000102.xml")] None [] None ] None ]
    None.

Definition fs_main_and_sub : filesystem :=
  [ (["corpus"; "L_2011100EN.01000101.doc.xml"],
     File (mkFile "" (WellFormed doc_main_and_sub))) ].

(** ** Sample corpora *)

(** A PSC decision: its metadata document and its body document. *)
Definition good_meta_xml : Element :=
  Elem "DOC" [] None
    [ Elem "BIB.DOC" [] None
        [ Elem "COLL" [] (Some "L") [] None;
          Elem "AUTHOR" [] (Some "PSC") [] None ] None;
      Elem "DOC.MAIN.PUB" [] None
        [ Elem "LEGAL.VALUE" [] (Some "DEC") [] None;
          Elem "REF.PHYS" [("FILE", "L_2011100EN.01000101.xml")] None [] None ] None ]
    None.

Definition good_body_xml : Element :=
  Elem "ACT" [] None
    [ Elem "BIB.INSTANCE" [] None
        [ Elem "DATE" [("ISO", "20110413")] (Some "20110413") [] None ] None;
      Elem "TITLE" [] (Some "Political and Security Committee Decision") [] None ]
    None.

Definition good_meta_path : Path := ["corpus"; "L_2011100EN.01000101.doc.xml"].
Definition good_body_path : Path := ["corpus"; "L_2011100EN.01000101.xml"].
Definition bad_meta_path : Path := ["corpus"; "L_2011200EN.01000101.doc.xml"].

Definition good_files : filesystem :=
  [ (good_meta_path, File (mkFile "" (WellFormed good_meta_xml)));
    (good_body_path, File (mkFile "" (WellFormed good_body_xml))) ].

(** A metadata document cut off after its first start tag. *)
Definition bad_file : Path * entry :=
  (bad_meta_path, File (mkFile "" (Malformed [Start (Elem "DOC" [] None [] None)]))).

Definition fs_good_only : filesystem := (["corpus"], Dir) :: good_files.
Definition fs_bad_first : filesystem := (["corpus"], Dir) :: bad_file :: good_files.
Definition fs_bad_last : filesystem := (["corpus"], Dir) :: good_files ++ [bad_file].

(** A body document without any [BIB.INSTANCE/DATE] element. *)
Definition undated_body_xml : Element :=
  Elem "ACT" [] None
    [ Elem "BIB.INSTANCE" [] None [] None;
      Elem "TITLE" [] (Some "Council Decision") [] None ]
    None.

Definition fs_undated : filesystem :=
  [ (good_body_path, File (mkFile "" (WellFormed undated_body_xml))) ].

(** A body document whose second [DATE] element is empty. *)
Definition empty_date_body_xml : Element :=
  Elem "ACT" [] None
    [ Elem "BIB.INSTANCE" [] None
        [ Elem "DATE" [] (Some "20110413") [] None;
          Elem "DATE" [] None [] None ] None ]
    None.

Definition fs_empty_date : filesystem :=
  [ (good_body_path, File (mkFile "" (WellFormed empty_date_body_xml))) ].

(** ** Dates in strict year-month-day form *)

(** The eight-digit form [YYYYMMDD] and the slash-delimited form of a date. *)
Definition compact_form (d : Datetime.date) : string :=
  Datetime.digits4 (Datetime.year d) +:+ Datetime.digits2 (Datetime.month d)
    +:+ Datetime.digits2 (Datetime.day d).

Definition slash_form (d : Datetime.date) : string :=
  Datetime.digits4 (Datetime.year d) +:+ "/" +:+ Datetime.digits2 (Datetime.month d)
    +:+ "/" +:+ Datetime.digits2 (Datetime.day d).

(** The month and day fields of [%m%d], with the unconverted rest. *)
Definition month_day (s : string) : option (nat * nat * string) :=
  Datetime.first_alt Datetime.directive_m s (fun m s2 =>
    Datetime.first_alt Datetime.directive_d s2 (fun d s3 => Some (m, d, s3))).

(** Every month 1-12 and day 1-31, written with two digits each, is read
    back as such with nothing left over. *)
Definition month_day_roundtrip : bool :=
  forallb (fun m =>
    forallb (fun d =>
      match month_day (Datetime.digits2 m +:+ Datetime.digits2 d) with
      | Some (m', d', rest) => Nat.eqb m' m && Nat.eqb d' d && String.eqb rest ""
      | None => false
      end) (seq 1 31)) (seq 1 12).

Section DateTexts.

Context `{P : Platform}.

(** Can [strptime] read the string? *)
Definition readable (s : string) : bool := is_ok (Datetime.strptime (Some s)).

(** The text that replaces a readable date string. *)
Definition reformat (s : string) : string :=
  match Datetime.strptime (Some s) with
  | Ok dt => Datetime.strftime strftime_pads_year dt
  | Raise _ => ""
  end.

End DateTexts.

(** ** Sample gazetteer

    [Luxembourg] is listed twice under its own key, as country and as
    capital, and once more under a second key. *)
Definition sample_geo_dict : list (string * list string) :=
  [ ("LU", ["Luxembourg"; "Luxembourg"; "Luxembourger"]);
    ("BENELUX", ["Belgium"; "Luxembourg"]) ].

Definition sample_text : string := "Luxembourg and luxembourg, not Belgium".

(** The atoms of the whole-word pattern of a name without metacharacters. *)
Definition word_atoms (name : string) : Re.pattern :=
  Re.WordB :: map Re.Lit (list_ascii_of_string name) ++ [Re.WordB].

Definition word_regex (name : string) : GeoRegex (P := demo_platform) :=
  mkGeoRegex (P := demo_platform) name ("\b" +:+ name +:+ "\b") true
    (Re.mkCompiled (word_atoms name) true).

(** The parser built from the sample table. *)
Definition sample_parser : list (GeoRegex (P := demo_platform)) :=
  [ word_regex "Belgium"; word_regex "Luxembourger"; word_regex "Luxembourg" ].

(** The matcher [GeoRegex('Sudan')]. *)
Definition sudan_regex : GeoRegex (P := demo_platform) :=
  mkGeoRegex (P := demo_platform) "Sudan" "\b(?<!South )Sudan\b" true
    (Re.mkCompiled
       [ Re.WordB; Re.NegLookbehind "South ";
         Re.Lit "S"; Re.Lit "u"; Re.Lit "d"; Re.Lit "a"; Re.Lit "n"; Re.WordB ]
       true).

(** ** Word boundaries

    Position [i] of a text is a word boundary when exactly one of the
    characters on its two sides is a word character; the ends of the text
    count as non-word characters. *)
Definition boundary (text : string) (i : nat) : bool :=
  let l := list_ascii_of_string text in
  xorb (Re.head_is_word (rev (firstn i l))) (Re.head_is_word (skipn i l)).

(** * Further reference definitions *)

(** ** The metadata record, read off the document tree *)

(** The texts of the [AUTHOR] elements that have a text, in the order in
    which the elements close. *)
Fixpoint authors_of (e : Element) : list string :=
  let 'Elem t _ tx cs _ := e in
  flat_map authors_of cs
  ++ (if String.eqb t "AUTHOR" then match tx with Some a => [a] | None => [] end else []).

(** The texts, present or not, of the elements tagged [name], in closing
    order. *)
Fixpoint texts_of (name : string) (e : Element) : list (option string) :=
  let 'Elem t _ tx cs _ := e in
  flat_map (texts_of name) cs ++ (if String.eqb t name then [tx] else []).

(** The [FILE] attributes of the [REF.PHYS] elements whose parent element is
    tagged [pub], in closing order. *)
Fixpoint ref_files (pub : string) (parent : option string) (e : Element) : list string :=
  let 'Elem t a _ cs _ := e in
  flat_map (ref_files pub (Some t)) cs
  ++ (if String.eqb t "REF.PHYS" && bool_decide (parent = Some pub)
      then match attrib_get "FILE" a with Ok f => [f] | Raise _ => [] end
      else []).

(** The text gathered from the [TITLE] elements that have [PAPER] among their
    ancestors, in the order in which the elements open.  [path] holds the
    tags of the ancestors of [e]. *)
Fixpoint title_of (path : list string) (e : Element) : string :=
  let 'Elem t _ _ cs _ := e in
  (if String.eqb t "TITLE" && in_path "PAPER" (path ++ [t])
   then Str.concat (itertext e) else "")
  +:+ Str.concat (map (title_of (path ++ [t])) cs).

(** Does an element tagged [name] occur in the tree? *)
Fixpoint has_tag (name : string) (e : Element) : bool :=
  let 'Elem t _ _ cs _ := e in
  String.eqb t name || existsb (has_tag name) cs.

Definition has_attrib (k : string) (a : list (string * string)) : bool :=
  is_ok (attrib_get k a).

(** The documents the parsing loop gets through: a [LEGAL.VALUE] or
    [REF.PHYS] element is not the root, and a [REF.PHYS] directly under
    [DOC.MAIN.PUB] or [DOC.SUB.PUB] carries a [FILE] attribute. *)
Fixpoint parses (parent : option string) (e : Element) : bool :=
  let 'Elem t a _ cs _ := e in
  forallb (parses (Some t)) cs
  && (if String.eqb t "LEGAL.VALUE" then bool_decide (parent <> None)
      else if String.eqb t "REF.PHYS" then
        match parent with
        | None => false
        | Some par =>
            if String.eqb par "DOC.MAIN.PUB" || String.eqb par "DOC.SUB.PUB"
            then has_attrib "FILE" a else true
        end
      else true).

(** What a stretch of the document adds to the record: texts appended to the
    lists and to the title, assignments to the codes and to the main
    reference in the order they are made. *)
Record delta : Type := mkDelta {
  d_authors : list string;
  d_coll : list (option string);
  d_com : list (option string);
  d_legval : list (option string);
  d_title : string;
  d_main : list string;
  d_sub : list string
}.

Definition delta_empty : delta := mkDelta [] [] [] [] "" [] [].

Definition delta_app (d1 d2 : delta) : delta :=
  mkDelta (d_authors d1 ++ d_authors d2) (d_coll d1 ++ d_coll d2) (d_com d1 ++ d_com d2)
          (d_legval d1 ++ d_legval d2) (d_title d1 +:+ d_title d2)
          (d_main d1 ++ d_main d2) (d_sub d1 ++ d_sub d2).

Definition apply_delta (d : delta) (m : MetaFile) : MetaFile :=
  let resolve := Pathlib.join (Pathlib.parent (file_path m)) in
  mkMeta (file_path m)
         (authors m ++ d_authors d)
         (last_assigned (coll m) (d_coll d))
         (last_assigned (com m) (d_com d))
         (last_assigned (legval m) (d_legval d))
         (title m +:+ d_title d)
         (last_assigned (main_pub m) (map (fun f => Some (resolve f)) (d_main d)))
         (sub_pubs m ++ map resolve (d_sub d)).

Definition delta_of (path : list string) (e : Element) : delta :=
  mkDelta (authors_of e) (texts_of "COLL" e) (texts_of "COM" e)
          (main_legvals (last path) e) (title_of path e)
          (ref_files "DOC.MAIN.PUB" (last path) e)
          (ref_files "DOC.SUB.PUB" (last path) e).

(** A metadata document that uses every field: two authors of the same name,
    a repeated collection code, a title with a nested element, references
    under both publication markers. *)
Definition rich_meta_xml : Element :=
  Elem "DOC" [] None
    [ Elem "BIB.DOC" [] None
        [ Elem "COLL" [] (Some "C") [] None;
          Elem "COLL" [] (Some "L") [] None;
          Elem "COM" [] (Some "CFSP") [] None;
          Elem "AUTHOR" [] (Some "CONSIL") [] None;
          Elem "AUTHOR" [] None [] None;
          Elem "AUTHOR" [] (Some "CONSIL") [] None ] None;
      Elem "TITLE" [] (Some "ignored") [] None;
      Elem "PAPER" [] None
        [ Elem "TITLE" [] (Some "Council Decision ")
            [ Elem "HT" [] (Some "2011/100/CFSP") [] (Some " of 13 April") ] None ] None;
      Elem "DOC.MAIN.PUB" [] None
        [ Elem "LEGAL.VALUE" [] (Some "DEC") [] None;
          Elem "REF.PHYS" [("FILE", "L_2011100EN.01000101.xml")] None [] None ] None;
      Elem "DOC.SUB.PUB" [] None
        [ Elem "REF.PHYS" [("FILE", "L_2011100EN.01000102.xml")] None [] None ] None;
      Elem "DOC.SUB.PUB" [] None
        [ Elem "REF.PHYS" [("FILE", "L_2011100EN.01000103.xml")] None [] None ] None ]
    None.

Definition fs_rich : filesystem :=
  [ (good_meta_path, File (mkFile "" (WellFormed rich_meta_xml))) ].

(** A document whose main reference lacks the [FILE] attribute. *)
Definition no_file_attr_xml : Element :=
  Elem "DOC" [] None
    [ Elem "DOC.MAIN.PUB" [] None [ Elem "REF.PHYS" [] None [] None ] None ] None.

Definition fs_no_file_attr : filesystem :=
  [ (good_meta_path, File (mkFile "" (WellFormed no_file_attr_xml))) ].

(** What opening an element adds, and what closing it adds. *)
Definition start_delta (path : list string) (e : Element) : delta :=
  mkDelta [] [] [] []
          (if String.eqb (tag e) "TITLE" && in_path "PAPER" (path ++ [tag e])
           then Str.concat (itertext e) else "")
          [] [].

Definition end_delta (parent : option string) (e : Element) : delta :=
  let 'Elem t a tx _ _ := e in
  mkDelta (if String.eqb t "AUTHOR" then match tx with Some x => [x] | None => [] end else [])
          (if String.eqb t "COLL" then [tx] else [])
          (if String.eqb t "COM" then [tx] else [])
          (if String.eqb t "LEGAL.VALUE" && bool_decide (parent = Some "DOC.MAIN.PUB")
           then [tx] else [])
          ""
          (if String.eqb t "REF.PHYS" && bool_decide (parent = Some "DOC.MAIN.PUB")
           then match attrib_get "FILE" a with Ok f => [f] | Raise _ => [] end
           else [])
          (if String.eqb t "REF.PHYS" && bool_decide (parent = Some "DOC.SUB.PUB")
           then match attrib_get "FILE" a with Ok f => [f] | Raise _ => [] end
           else []).

Definition children_delta (path : list string) (cs : list Element) : delta :=
  fold_right (fun c acc => delta_app (delta_of path c) acc) delta_empty cs.

(** Does the [end] step of the loop get through for this element? *)
Definition end_ok (parent : option string) (e : Element) : bool :=
  if String.eqb (tag e) "LEGAL.VALUE" then bool_decide (parent <> None)
  else if String.eqb (tag e) "REF.PHYS" then
    match parent with
    | None => false
    | Some par =>
        if String.eqb par "DOC.MAIN.PUB" || String.eqb par "DOC.SUB.PUB"
        then has_attrib "FILE" (attrib e) else true
    end
  else true.

(** The exception that ends the loop on a document it does not get through:
    [IndexError] when it is the root that has no parent entry on the stack,
    [KeyError] for a missing [FILE] attribute. *)
Definition fail_exn (parent : option string) (e : Element) : exn :=
  if bool_decide (parent = None) && forallb (parses (Some (tag e))) (children e)
  then IndexError else KeyError.

(** The record parsed from [rich_meta_xml]. *)
Definition rich_record : MetaFile :=
  mkMeta good_meta_path ["CONSIL"; "CONSIL"] (Some "L") (Some "CFSP") (Some "DEC")
         "Council Decision 2011/100/CFSP of 13 April"
         (Some ["corpus"; "L_2011100EN.01000101.xml"])
         [ ["corpus"; "L_2011100EN.01000102.xml"]; ["corpus"; "L_2011100EN.01000103.xml"] ].

(** ** Legal bases, read off the document tree

    One text per [VISA] element, in the order in which the elements open; a
    [VISA] nested in another one contributes to both. *)
Fixpoint visa_texts (e : Element) : list string :=
  let 'Elem t _ _ cs _ := e in
  (if String.eqb t "VISA" then [Str.concat (itertext e)] else [])
  ++ flat_map visa_texts cs.

(** A recital block with a nested citation. *)
Definition visa_body_xml : Element :=
  Elem "ACT" [] None
    [ Elem "PREAMBLE" [] None
        [ Elem "VISA" [] (Some "Having regard to the Treaty")
            [ Elem "VISA" [] (Some ", Article 29") [] (Some ",") ] None;
          Elem "VISA" [] (Some "Having regard to the Treaty") [] None ] None;
      Elem "BIB.INSTANCE" [] None
        [ Elem "DATE" [] (Some "20110413") [] None ] None ]
    None.

Definition fs_visa : filesystem :=
  [ (good_body_path, File (mkFile "" (WellFormed visa_body_xml))) ].

(** ** The corpus *)

(** An item of the corpus: a decision, on foreign and security policy, with
    no sub-documents. *)
Definition selected (it : EurLexItem) : Prop :=
  is_dec (meta it) = true /\ is_cfsp it = true /\ sub_docs it = None.

(** ** Exports *)

Definition has_date (it : EurLexItem) : bool :=
  match main_doc it with
  | Some d => match dates d with [] => false | _ :: _ => true end
  | None => false
  end.

Definition has_coll (it : EurLexItem) : bool :=
  match coll (meta it) with Some _ => true | None => false end.

(** The line of the headers export for an item that has what the line needs. *)
Definition header_line (it : EurLexItem) : string :=
  Str.join ","
    [ Str.join ","
        [ Pathlib.to_string (file_path (meta it)); Str.join "_" (authors (meta it));
          fstr (coll (meta it)); fstr (legval (meta it)) ];
      match main_doc it with
      | Some d => match dates d with x :: _ => x | [] => "" end
      | None => ""
      end ].

(** ** Sample corpus with a missing body document *)

Definition fs_body_missing : filesystem :=
  [ (["corpus"], Dir);
    (good_meta_path, File (mkFile "" (WellFormed good_meta_xml))) ].

Definition good_record : MetaFile :=
  mkMeta good_meta_path ["PSC"] (Some "L") None (Some "DEC") ""
         (Some good_body_path) [].

(** A decision whose metadata names no main body. *)
Definition no_main_xml : Element :=
  Elem "DOC" [] None
    [ Elem "DOC.MAIN.PUB" [] None [ Elem "LEGAL.VALUE" [] (Some "DEC") [] None ] None ] None.

Definition fs_no_main : filesystem :=
  [ (["corpus"], Dir);
    (good_meta_path, File (mkFile "" (WellFormed no_main_xml))) ].

Definition no_main_record : MetaFile :=
  mkMeta good_meta_path [] None None (Some "DEC") "" None [].

Definition good_body : DataFile :=
  mkData good_body_path []
         ("20110413" +:+ String "010" "Political and Security Committee Decision")
         ["2011/04/13"] [] ∅.

Definition good_dataset : EurLexDataset :=
  mkDataset ["corpus"] [good_meta_path] [mkItem good_record (Some good_body) None].

Definition date_2011_04_13 : Datetime.date := Datetime.mkDate 2011 4 13.

(** ** Qualified place names

    The curated overrides: the name, the qualifier that changes what the name
    refers to, and whether the qualifier comes before the name. *)
Definition qualified_names : list (string * string * bool) :=
  [ ("Balkans", "Western ", true);
    ("Sudan", "South ", true);
    ("Mediterranean", "Southern ", true);
    ("Vatican", " City", false);
    ("Czech", " Republic", false);
    ("Swiss", " Confederation", false);
    ("Palestinian", " Territor", false) ].

(** Does [q] stand right before position [s], respectively right after
    position [e], of the text, whatever the case of the letters? *)
Definition preceded_by (q text : string) (s : nat) : bool :=
  Re.prefix_of true (rev (list_ascii_of_string q))
    (rev (firstn s (list_ascii_of_string text))).

Definition followed_by (q text : string) (e : nat) : bool :=
  Re.prefix_of true (list_ascii_of_string q) (skipn e (list_ascii_of_string text)).

(** Does the text spell [name] from position [s] on, whatever the case? *)
Definition spells (name text : string) (s : nat) : bool :=
  Re.prefix_of true (list_ascii_of_string name) (skipn s (list_ascii_of_string text)).

Definition no_meta (name : string) : bool :=
  forallb (fun c => negb (Re.is_meta c)) (list_ascii_of_string name).

(** The matcher compiled for a qualified name. *)
Definition qualified_regex (name q : string) (before : bool) : GeoRegex (P := demo_platform) :=
  mkGeoRegex (P := demo_platform) name ("\b" +:+ _preprocess name +:+ "\b") true
    (Re.mkCompiled
       (if before
        then Re.WordB :: Re.NegLookbehind q :: map Re.Lit (list_ascii_of_string name)
               ++ [Re.WordB]
        else Re.WordB :: map Re.Lit (list_ascii_of_string name)
               ++ [Re.NegLookahead q; Re.WordB])
       true).

(** ** The gazetteer table *)

(** [d.get(k)] *)
Fixpoint dict_lookup {V} (k : string) (d : list (string * V)) : option V :=
  match d with
  | [] => None
  | (k', v) :: rest => if String.eqb k k' then Some v else dict_lookup k rest
  end.

(** The rows of a table file: lines that are neither comments nor empty,
    split at the separator, empty fields dropped. *)
Definition table_rows (sep : ascii) (comment : string) (content : string)
  : list (list string) :=
  map (fun l => filter non_empty (Str.split sep l))
      (filter non_empty
         (filter (fun l => negb (Str.startswith comment l)) (Str.split "010" content))).

(** The names of the last row that starts with the key [k]. *)
Fixpoint last_row (k : string) (rows : list (list string)) : option (list string) :=
  match rows with
  | [] => None
  | row :: rest =>
      match last_row k rest with
      | Some names => Some names
      | None =>
          match row with
          | key :: names => if String.eqb k key then Some names else None
          | [] => None
          end
      end
  end.

Definition is_row (row : list string) : bool :=
  match row with [] => false | _ :: _ => true end.

(** A table with a repeated key and a line made of separators only. *)
Definition repeated_key_table : string :=
  "# key,country,capital" +:+ String "010"
  ("LU,Luxembourg,Luxembourg" +:+ String "010"
  ("" +:+ String "010"
  ("SD,Sudan,Khartoum" +:+ String "010"
  ("LU,Letzebuerg" +:+ String "010" "")))).

Definition fs_table : filesystem :=
  [ (["data"; "geo_info.csv"], File (mkFile repeated_key_table (Malformed [])));
    (["data"; "broken.csv"],
     File (mkFile ("LU,Luxembourg" +:+ String "010" ",,") (Malformed []))) ].

Definition repeated_key_dict : list (string * list string) :=
  [ ("LU", ["Letzebuerg"]); ("SD", ["Sudan"; "Khartoum"]) ].

(** ** [parsing/tokenizer.py]

    The word tokenizer and the stopword list come from NLTK; the class is
    modelled over them. *)

Section Tokenizer.

Variable word_tokenize : string -> list string.
Variable stopwords : list string.

Record Tokenizer : Type := mkTokenizer {
  filter_stopwords : bool;
  check_is_alpha : bool;
  to_lower : bool
}.

(** [token.isalpha()]: at least one character, letters only. *)
Definition isalpha (token : string) : bool :=
  negb (String.eqb token "")
  && forallb (fun c => Str.is_upper c || Str.is_lower c) (list_ascii_of_string token).

(** [token in self.stopwords] *)
Definition is_stopword (token : string) : bool := existsb (String.eqb token) stopwords.

(** [Tokenizer._is_valid] *)
Definition _is_valid (tk : Tokenizer) (token : string) : bool :=
  let valid := true in
  let valid := if check_is_alpha tk && negb (isalpha token) then false else valid in
  let valid := if filter_stopwords tk && is_stopword token then false else valid in
  valid.

(** [Tokenizer.__call__] *)
Definition Tokenizer_call (tk : Tokenizer) (raw_text : string) : list string :=
  let raw_text := if to_lower tk then Str.lower raw_text else raw_text in
  let tokens := word_tokenize raw_text in
  List.filter (_is_valid tk) tokens.

End Tokenizer.

(** A tokenizer that splits at spaces, and two stopwords, for examples. *)
Definition split_at_spaces (s : string) : list string := Str.split " " s.

Definition sample_stopwords : list string := ["the"; "of"].

(** ** Listings *)

(** A manifest with an empty line between two paths. *)
Definition fs_manifest : filesystem :=
  [ (["list.txt"],
     File (mkFile ("corpus/L_2011100EN.01000101.doc.xml" +:+ String "010"
                   ("" +:+ String "010" "corpus/L_2011200EN.01000101.doc.xml"))
                  (Malformed [])));
    (good_meta_path, File (mkFile "" (WellFormed good_meta_xml)));
    (good_body_path, File (mkFile "" (WellFormed good_body_xml))) ].

(** The parser built from [repeated_key_table]. *)
Definition table_parser : list (GeoRegex (P := demo_platform)) :=
  [ word_regex "Khartoum"; sudan_regex; word_regex "Letzebuerg" ].

(** A directory with a metadata document two levels down, a body document
    and a metadata document outside the directory. *)
Definition fs_nested : filesystem :=
  [ (["corpus"], Dir);
    (["corpus"; "2011"], Dir);
    (["corpus"; "2011"; "L_2011100EN.01000101.doc.xml"],
     File (mkFile "" (WellFormed good_meta_xml)));
    (["corpus"; "2011"; "L_2011100EN.01000101.xml"],
     File (mkFile "" (WellFormed good_body_xml)));
    (["other"; "L_2011200EN.01000101.doc.xml"],
     File (mkFile "" (WellFormed good_meta_xml))) ].

(** * Properties *)

(** ** The decision predicate *)

Lemma DEC_CODES_elem c : c ∈ DEC_CODES <-> In c decision_codes.
Proof.
  unfold DEC_CODES, decision_codes. rewrite !elem_of_union, !elem_of_singleton. simpl.
  intuition.
Qed.

Lemma decision_codes_NoDup : NoDup decision_codes.
Proof. apply (bool_decide_unpack _). vm_compute. exact I. Qed.

(** C4.  [is_dec] is true exactly when the legal-value code is one of the
    seven decision codes; it is false for every other code and when the
    code is absent. *)
Theorem is_dec_iff_decision_code (m : MetaFile) :
  (is_dec m = true <-> exists c, legval m = Some c /\ In c decision_codes)
  /\ is_dec (set_legval m None) = false
  /\ length decision_codes = 7
  /\ NoDup decision_codes
  /\ (forall c, c ∈ DEC_CODES <-> In c decision_codes).
Proof.
  split; [|split; [reflexivity|split; [reflexivity|split]]].
  - unfold is_dec. destruct (legval m) as [v|].
    + rewrite bool_decide_eq_true, DEC_CODES_elem. split.
      * intros H. by exists v.
      * intros (c & Heq & Hc). by simplify_eq.
    + split; [done|]. by intros (c & Heq & _).
  - apply decision_codes_NoDup.
  - apply DEC_CODES_elem.
Qed.

(** ** The foreign-and-security-policy predicate *)

Lemma MANUALLY_SELECTED_elem n : n ∈ MANUALLY_SELECTED <-> In n manually_selected_names.
Proof.
  unfold MANUALLY_SELECTED, manually_selected_names.
  rewrite !elem_of_union, !elem_of_singleton. simpl. intuition.
Qed.

Lemma CFSP_AUTHORS_elem a : a ∈ CFSP_AUTHORS <-> In a cfsp_author_codes.
Proof.
  unfold CFSP_AUTHORS, cfsp_author_codes.
  rewrite !elem_of_union, !elem_of_singleton. simpl. intuition.
Qed.

(** The flag-setting loop over the authors is a disjunction. *)
Lemma flag_loop (p : string -> bool) (l : list string) (b : bool) :
  fold_left (fun v a => if p a then true else v) l b = b || existsb p l.
Proof.
  revert b. induction l as [|a l IH]; intros b; simpl.
  - by rewrite orb_false_r.
  - rewrite IH. destruct (p a), b; reflexivity.
Qed.

Lemma startswith_spec (p s : string) :
  Str.startswith p s = true <-> exists post, s = p +:+ post.
Proof.
  revert s. induction p as [|a p IH]; intros s; simpl.
  - split; [intros _; by exists s | done].
  - destruct s as [|b s].
    + split; [done | intros (post & H); discriminate].
    + rewrite andb_true_iff, Ascii.eqb_eq, IH. split.
      * intros (-> & post & ->). by exists post.
      * intros (post & H). injection H as -> ->. split; [done | by exists post].
Qed.

(** [Str.contains] is substring containment. *)
Lemma contains_spec (sub s : string) :
  Str.contains sub s = true <-> exists pre post, s = pre +:+ sub +:+ post.
Proof.
  induction s as [|c s IH].
  - cbn [Str.contains]. rewrite orb_false_r, startswith_spec. split.
    + intros (post & H). by exists "", post.
    + intros (pre & post & H). destruct pre; [by exists post | discriminate].
  - cbn [Str.contains]. rewrite orb_true_iff, startswith_spec, IH. split.
    + intros [(post & H) | (pre & post & H)].
      * by exists "", post.
      * exists (String c pre), post. simpl. by rewrite H.
    + intros (pre & post & H). destruct pre as [|c' pre].
      * left. by exists post.
      * right. simpl in H. injection H as -> ->. by exists pre, post.
Qed.

(** C5.  [is_cfsp] is the disjunction of its four tests: the metadata file
    name is in the manual allow-list, the lowercased title contains [cfsp],
    the classification code is [CFSP], or some author is one of [PSC],
    [EEAS], [PESC]; it is false exactly when all four fail. *)
Theorem is_cfsp_iff_any_condition (it : EurLexItem) :
  let by_name := In (Pathlib.name (file_path (meta it))) manually_selected_names in
  let by_title := exists pre post, Str.lower (title (meta it)) = pre +:+ "cfsp" +:+ post in
  let by_code := com (meta it) = Some "CFSP" in
  let by_author := exists a, In a (authors (meta it)) /\ In a cfsp_author_codes in
  (is_cfsp it = true <-> by_name \/ by_title \/ by_code \/ by_author)
  /\ (is_cfsp it = false <-> ~ by_name /\ ~ by_title /\ ~ by_code /\ ~ by_author)
  /\ length manually_selected_names = 7
  /\ length cfsp_author_codes = 3.
Proof.
  intros by_name by_title by_code by_author.
  assert (Hif : forall a b : bool, (if a then true else b) = a || b) by (by intros []).
  assert (Htrue : is_cfsp it = true <-> by_name \/ by_title \/ by_code \/ by_author).
  { unfold is_cfsp. rewrite flag_loop, !Hif, orb_false_r.
    rewrite !orb_true_iff, !bool_decide_eq_true, existsb_exists.
    rewrite MANUALLY_SELECTED_elem, contains_spec.
    assert (Hauth : (exists x, In x (authors (meta it)) /\ bool_decide (x ∈ CFSP_AUTHORS) = true)
                    <-> by_author).
    { split; intros (a & Ha & Hb); exists a; split; try exact Ha.
      - by rewrite bool_decide_eq_true, CFSP_AUTHORS_elem in Hb.
      - by rewrite bool_decide_eq_true, CFSP_AUTHORS_elem. }
    rewrite Hauth. subst by_name by_title by_code. tauto. }
  split; [exact Htrue|]. split; [|split; reflexivity].
  rewrite <- not_true_iff_false, Htrue. tauto.
Qed.

(** ** The one-line summary *)

Lemma map_result_fails {A B} (f : A -> result B) (l : list A) (x : A) :
  In x l -> is_ok (f x) = false -> is_ok (map_result f l) = false.
Proof.
  induction l as [|y l IH]; intros Hin Hx; [destruct Hin|].
  simpl. destruct (f y) eqn:Hy; [|reflexivity]. simpl.
  destruct Hin as [-> | Hin].
  - rewrite Hy in Hx. discriminate.
  - specialize (IH Hin Hx). destruct (map_result f l); [discriminate | reflexivity].
Qed.

(** C10.  For a record without collection code the one-line summary raises
    [TypeError]: the code is joined as it is, so the item summary and the
    headers export of any dataset holding such an item fail too.  Only the
    legal-value code has the replacement text [None]: with a collection code
    present the summary is the comma-joined line. *)
Theorem summary_raises_without_coll (ds : EurLexDataset) (it : EurLexItem)
    (Hin : In it (items ds)) (Hcoll : coll (meta it) = None) :
  EurLexMetaFile_str (meta it) = Raise TypeError
  /\ EurLexItem_str it = Raise TypeError
  /\ is_ok (dump_to_txt ds headers) = false
  /\ (forall c, EurLexMetaFile_str (set_coll (meta it) (Some c)) =
                Ok (Str.join "," [Pathlib.to_string (file_path (meta it));
                                  Str.join "_" (authors (meta it)); c;
                                  match legval (meta it) with
                                  | Some v => v
                                  | None => "None"
                                  end])).
Proof.
  assert (Hm : EurLexMetaFile_str (meta it) = Raise TypeError).
  { unfold EurLexMetaFile_str, py_join. simpl. by rewrite Hcoll. }
  assert (Hi : EurLexItem_str it = Raise TypeError).
  { unfold EurLexItem_str. by rewrite Hm. }
  repeat split; try assumption.
  unfold dump_to_txt.
  pose proof (map_result_fails EurLexItem_str (items ds) it Hin) as Hf.
  rewrite Hi in Hf. specialize (Hf eq_refl).
  destruct (map_result EurLexItem_str (items ds)); [discriminate | reflexivity].
Qed.

Lemma summary_raises_without_coll_witness :
  In item_without_coll (items dataset_without_coll)
  /\ coll (meta item_without_coll) = None
  /\ EurLexItem_str item_without_coll = Raise TypeError
  /\ is_ok (dump_to_txt dataset_without_coll headers) = false.
Proof.
  assert (Hin : In item_without_coll (items dataset_without_coll)) by (left; reflexivity).
  assert (Hcoll : coll (meta item_without_coll) = None) by reflexivity.
  destruct (summary_raises_without_coll dataset_without_coll item_without_coll Hin Hcoll)
    as (_ & Hi & Hd & _).
  exact (conj Hin (conj Hcoll (conj Hi Hd))).
Defined.

(** ** The metadata parser *)

Lemma for_events_app {S} (body : S -> event -> result S) (st : S) (a b : list event) :
  for_events body st (a ++ b) =
  let* st' := for_events body st a in for_events body st' b.
Proof.
  revert st. induction a as [|ev a IH]; intros st; simpl; [reflexivity|].
  destruct (body st ev); simpl; [apply IH | reflexivity].
Qed.

Lemma index_neg2_snoc (path : list string) (t : string) :
  index_neg2 (path ++ [t]) =
  match last path with Some x => Ok x | None => Raise IndexError end.
Proof.
  unfold index_neg2. rewrite rev_app_distr. simpl.
  destruct path as [|x path] using rev_ind; [reflexivity|].
  rewrite rev_app_distr, last_snoc. reflexivity.
Qed.

Lemma pop_snoc (path : list string) (t : string) : pop (path ++ [t]) = Ok path.
Proof. unfold pop. rewrite rev_app_distr. simpl. by rewrite rev_involutive. Qed.

(** An induction principle that reaches the children. *)
Lemma Element_nested_ind (Q : Element -> Prop)
    (H : forall t a tx cs tl, Forall Q cs -> Q (Elem t a tx cs tl)) :
  forall e, Q e.
Proof.
  fix IH 1. intros [t a tx cs tl]. apply H.
  induction cs as [|c cs IHcs]; constructor; [apply IH | exact IHcs].
Qed.

(** What closing an element does to the legal value and to the path stack:
    the text is recorded exactly when the element is a [LEGAL.VALUE] whose
    parent, the entry below it on the stack, is [DOC.MAIN.PUB]. *)
Lemma meta_on_end_legval (m m' : MetaFile) (path path' : list string) (e : Element) :
  meta_on_end m (path ++ [tag e]) e = Ok (m', path') ->
  path' = path /\
  legval m' = if String.eqb (tag e) "LEGAL.VALUE" && bool_decide (last path = Some "DOC.MAIN.PUB")
              then text e else legval m.
Proof.
  unfold meta_on_end. rewrite index_neg2_snoc, pop_snoc.
  destruct e as [t a tx cs tl]. cbn [tag text attrib].
  destruct (String.eqb_spec t "AUTHOR") as [->|Hauthor].
  { destruct tx; simpl; intros [= <- <-]; done. }
  destruct (String.eqb_spec t "COM") as [->|Hcom].
  { simpl; intros [= <- <-]; done. }
  destruct (String.eqb_spec t "COLL") as [->|Hcoll].
  { simpl; intros [= <- <-]; done. }
  destruct (String.eqb_spec t "LEGAL.VALUE") as [->|Hlv].
  { destruct (last path) as [parent|] eqn:Hlast; simpl; [|discriminate].
    destruct (String.eqb_spec parent "DOC.MAIN.PUB") as [->|Hp]; simpl.
    - intros [= <- <-]. done.
    - intros [= <- <-]. split; [done|].
      destruct (bool_decide_reflect (Some parent = Some "DOC.MAIN.PUB")); [congruence | done]. }
  destruct (String.eqb_spec t "REF.PHYS") as [->|Hrp].
  { destruct (last path) as [parent|]; simpl; [|discriminate].
    destruct (String.eqb parent "DOC.MAIN.PUB"); simpl.
    - destruct (attrib_get "FILE" a); simpl; [|discriminate]. intros [= <- <-]; done.
    - destruct (String.eqb parent "DOC.SUB.PUB"); simpl.
      + destruct (attrib_get "FILE" a); simpl; [|discriminate]. intros [= <- <-]; done.
      + intros [= <- <-]; done. }
  simpl. intros [= <- <-]; done.
Qed.

Lemma events_of_unfold (t : string) a tx (cs : list Element) tl :
  events_of (Elem t a tx cs tl) =
  Start (Elem t a tx cs tl) :: flat_map events_of cs ++ [End (Elem t a tx cs tl)].
Proof. reflexivity. Qed.

Lemma main_legvals_unfold (parent : option string) (t : string) a tx (cs : list Element) tl :
  main_legvals parent (Elem t a tx cs tl) =
  flat_map (main_legvals (Some t)) cs
  ++ (if String.eqb t "LEGAL.VALUE" && bool_decide (parent = Some "DOC.MAIN.PUB")
      then [tx] else []).
Proof. reflexivity. Qed.

Lemma last_assigned_app {A} (v0 : A) (a b : list A) :
  last_assigned v0 (a ++ b) = last_assigned (last_assigned v0 a) b.
Proof.
  unfold last_assigned. induction b as [|x b IH] using rev_ind.
  - by rewrite app_nil_r.
  - by rewrite app_assoc, !List.last_last.
Qed.

Lemma meta_on_start_legval (m : MetaFile) (path : list string) (e : Element) :
  exists m1, meta_on_start m path e = Ok (m1, path ++ [tag e]) /\ legval m1 = legval m.
Proof.
  unfold meta_on_start.
  destruct (String.eqb (tag e) "TITLE" && in_path "PAPER" (path ++ [tag e])); eauto.
Qed.

(** Running the loop over the events of one element restores the path stack;
    the legal value afterwards is the last one assigned from the element's
    subtree, if any. *)
Lemma events_legval (e : Element) :
  forall m path m' path',
    for_events meta_step (m, path) (events_of e) = Ok (m', path') ->
    path' = path /\
    legval m' = last_assigned (legval m) (main_legvals (last path) e).
Proof.
  induction e as [t a tx cs tl IHcs] using Element_nested_ind.
  intros m path m' path'.
  rewrite events_of_unfold, main_legvals_unfold. cbn [for_events meta_step fst snd].
  destruct (meta_on_start_legval m path (Elem t a tx cs tl)) as (m1 & -> & Hm1).
  cbn [bind tag]. rewrite for_events_app.
  assert (Hchildren : forall m2 m3 p3,
             for_events meta_step (m2, path ++ [t]) (flat_map events_of cs) = Ok (m3, p3) ->
             p3 = path ++ [t] /\
             legval m3 = last_assigned (legval m2) (flat_map (main_legvals (Some t)) cs)).
  { induction IHcs as [|c cs Hc _ IH]; intros m2 m3 p3.
    - simpl. by intros [= <- <-].
    - cbn [flat_map]. rewrite for_events_app.
      destruct (for_events meta_step (m2, path ++ [t]) (events_of c))
        as [[m4 p4]|] eqn:Hrun; [|discriminate].
      apply Hc in Hrun as [-> Hm4]. cbn [bind]. intros Hrest.
      apply IH in Hrest as [-> Hm3]. split; [done|].
      rewrite last_assigned_app, Hm3, Hm4. by rewrite last_snoc. }
  destruct (for_events meta_step (m1, path ++ [t]) (flat_map events_of cs))
    as [[m2 p2]|] eqn:Hrun; [|discriminate].
  apply Hchildren in Hrun as [-> Hm2]. cbn [bind for_events meta_step fst snd].
  destruct (meta_on_end m2 (path ++ [t]) (Elem t a tx cs tl)) as [[m3 p3]|] eqn:Hend;
    [|discriminate].
  cbn [bind]. intros [= <- <-].
  apply (meta_on_end_legval m2 m3 path p3 (Elem t a tx cs tl)) in Hend as [-> Hm3].
  split; [done|]. rewrite last_assigned_app, Hm3, Hm2, Hm1. cbn [tag text].
  by destruct (String.eqb t "LEGAL.VALUE" && bool_decide (last path = Some "DOC.MAIN.PUB")).
Qed.

(** The [end] step on a [LEGAL.VALUE] element, whatever lies deeper on the
    stack: under [DOC.MAIN.PUB] the text becomes the legal value, under any
    other parent the record is left as it is. *)
Lemma legal_value_end_step (m : MetaFile) (path : list string) (parent : string)
    a tx cs tl :
  meta_step (m, path ++ [parent; "LEGAL.VALUE"]) (End (Elem "LEGAL.VALUE" a tx cs tl)) =
  Ok (if String.eqb parent "DOC.MAIN.PUB" then set_legval m tx else m, path ++ [parent]).
Proof.
  cbn [meta_step fst snd]. unfold meta_on_end.
  replace (path ++ [parent; "LEGAL.VALUE"]) with ((path ++ [parent]) ++ ["LEGAL.VALUE"])
    by (by rewrite <- app_assoc).
  rewrite index_neg2_snoc, pop_snoc, last_snoc. cbn.
  by destruct (String.eqb parent "DOC.MAIN.PUB").
Qed.

(** C6.  After a metadata document has been parsed, the legal-value code of
    the record is the text of the last [LEGAL.VALUE] element whose parent
    element is [DOC.MAIN.PUB], and is absent when there is none:
    [LEGAL.VALUE] elements under any other parent, [DOC.SUB.PUB] included,
    leave it unchanged.  At the step that closes a [LEGAL.VALUE] element the
    parent is the second-to-last entry of the path stack. *)
Theorem legval_only_from_main_publication (fs : filesystem) (p : Path) (f : file)
    (root : Element) (m : MetaFile)
    (Hfile : is_file fs p = Some f) (Hxml : parsed f = WellFormed root)
    (Hparse : EurLexMetaFile_init fs (Some p) = Ok m) :
  legval m = last_assigned None (main_legvals None root)
  /\ (forall m0 path parent a tx cs tl,
        meta_step (m0, path ++ [parent; "LEGAL.VALUE"])
                  (End (Elem "LEGAL.VALUE" a tx cs tl)) =
        Ok (if String.eqb parent "DOC.MAIN.PUB" then set_legval m0 tx else m0,
            path ++ [parent])).
Proof.
  split; [|intros; apply legal_value_end_step].
  unfold EurLexMetaFile_init, EurLexFile_init, iterparse in Hparse.
  rewrite Hfile in Hparse. cbn [bind] in Hparse. rewrite Hfile, Hxml in Hparse.
  destruct (for_events meta_step (meta_blank p, []) (events_of root)) as [[m' path']|] eqn:Hrun;
    [|discriminate].
  cbn [bind fst] in Hparse. injection Hparse as <-.
  apply events_legval in Hrun as [_ ->]. reflexivity.
Qed.

Lemma legval_only_from_main_publication_witness :
  exists m,
    EurLexMetaFile_init fs_main_and_sub (Some ["corpus"; "L_2011100EN.01000101.doc.xml"]) = Ok m
    /\ main_legvals None doc_main_and_sub = [Some "DEC"]
    /\ legval m = Some "DEC".
Proof.
  eexists. split; [vm_compute; reflexivity|]. split; [reflexivity|].
  exact (proj1 (legval_only_from_main_publication fs_main_and_sub
                  ["corpus"; "L_2011100EN.01000101.doc.xml"]
                  (mkFile "" (WellFormed doc_main_and_sub)) doc_main_and_sub _
                  eq_refl eq_refl eq_refl)).
Defined.

(** ** Corpus assembly *)

Section Assembly.

Context `{P : Platform}.

(** The loop stops at the first exception: nothing is caught. *)
Lemma load_items_raises (fs : filesystem) (tok lb : bool) (lp : option (list GeoRegex))
    (files : list Path) (f : Path) (e : exn) :
  In f files ->
  EurLexMetaFile_init fs (Some f) = Raise e ->
  forall acc, exists e', load_items fs tok lb lp files acc = Raise e'.
Proof.
  intros Hin Hf. induction files as [|g files IH]; [destruct Hin|].
  intros acc. cbn [load_items].
  destruct (EurLexMetaFile_init fs (Some g)) as [mg|eg] eqn:Hg; [|by exists eg].
  destruct Hin as [-> | Hin]; [congruence|].
  cbn [bind]. destruct (is_dec mg); [|by apply IH].
  destruct (EurLexDataFile_init fs (main_pub mg) tok lb lp) as [d|ed]; [|by exists ed].
  cbn [bind]. destruct (is_cfsp _); by apply IH.
Qed.

(** When the failing file is the first of the list, its exception is the
    one that leaves the loop. *)
Lemma load_items_raises_first (fs : filesystem) (tok lb : bool)
    (lp : option (list GeoRegex)) (files : list Path) (f : Path) (e : exn) acc :
  EurLexMetaFile_init fs (Some f) = Raise e ->
  load_items fs tok lb lp (f :: files) acc = Raise e.
Proof. intros Hf. cbn [load_items]. by rewrite Hf. Qed.

End Assembly.

(** C1, as the code has it.  [EurLexDataset.__init__] has no handler around
    the construction of a metadata record: when the construction fails for
    any enumerated file, the exception leaves the constructor and no corpus
    is produced. *)
Theorem metadata_failure_aborts_assembly (P : Platform) (fs : filesystem) (root : Path)
    (tokenize parse_legal_bases parse_locations : bool)
    (files : list Path) (f : Path) (e : exn)
    (Hlist : _list_meta_files fs root = Ok files)
    (Hin : In f files)
    (Hfail : EurLexMetaFile_init fs (Some f) = Raise e) :
  exists e', EurLexDataset_init fs root tokenize parse_legal_bases parse_locations = Raise e'.
Proof.
  unfold EurLexDataset_init. rewrite Hlist. cbn [bind].
  destruct (if parse_locations then _ else _) as [lp|e0]; [|by exists e0].
  cbn [bind].
  destruct (load_items_raises fs tokenize parse_legal_bases lp files f e Hin Hfail [])
    as [e' ->].
  by exists e'.
Qed.

Lemma metadata_failure_aborts_assembly_witness :
  _list_meta_files fs_bad_last ["corpus"] = Ok [good_meta_path; bad_meta_path]
  /\ EurLexMetaFile_init fs_bad_last (Some bad_meta_path) = Raise ParseError
  /\ exists e', EurLexDataset_init (P := demo_platform) fs_bad_last ["corpus"]
                  false false false = Raise e'.
Proof.
  split; [reflexivity|]. split; [reflexivity|].
  apply (metadata_failure_aborts_assembly demo_platform fs_bad_last ["corpus"]
           false false false [good_meta_path; bad_meta_path] bad_meta_path ParseError).
  - reflexivity.
  - right. left. reflexivity.
  - reflexivity.
Defined.

(** C1, counterexample.  The valid document alone gives a one-item corpus;
    next to a malformed metadata document, in either listing order, the
    constructor raises [ParseError] instead of returning a corpus. *)
Lemma one_malformed_document_aborts_the_run :
  (exists ds, EurLexDataset_init (P := demo_platform) fs_good_only ["corpus"]
                false false false = Ok ds /\ length (items ds) = 1)
  /\ EurLexDataset_init (P := demo_platform) fs_bad_first ["corpus"]
       false false false = Raise ParseError
  /\ EurLexDataset_init (P := demo_platform) fs_bad_last ["corpus"]
       false false false = Raise ParseError
  /\ ~ (exists ds, EurLexDataset_init (P := demo_platform) fs_bad_first ["corpus"]
                     false false false = Ok ds /\ length (items ds) = 1).
Proof.
  split; [eexists; split; [vm_compute; reflexivity | reflexivity]|].
  split; [vm_compute; reflexivity|]. split; [vm_compute; reflexivity|].
  intros (ds & Hds & _). vm_compute in Hds. discriminate.
Qed.

(** ** Missing files *)

(** C3, as the code has it.  For a path that names no file, the metadata
    constructor and the gazetteer loader raise [OSError], and so does the
    location parser built on the loader.  The body-document constructor
    catches that error: it returns an instance on which no attribute has been
    set. *)
Theorem missing_file_outcomes (P : Platform) (fs : filesystem) (p : Path)
    (Hmissing : is_file fs p = None) :
  EurLexMetaFile_init fs (Some p) = Raise OSError
  /\ (forall sep comment, read_geo_table fs p sep comment = Raise OSError)
  /\ LocationParser_init fs p = Raise OSError
  /\ (forall tokenizer legbase_parser loc_parser,
        EurLexDataFile_init fs (Some p) tokenizer legbase_parser loc_parser = Ok None).
Proof.
  repeat split.
  - unfold EurLexMetaFile_init, EurLexFile_init. by rewrite Hmissing.
  - intros sep comment. unfold read_geo_table. by rewrite Hmissing.
  - unfold LocationParser_init, read_geo_table. by rewrite Hmissing.
  - intros tok lb lp. unfold EurLexDataFile_init, EurLexFile_init. by rewrite Hmissing.
Qed.

Lemma missing_file_outcomes_witness :
  is_file good_files ["corpus"; "absent.xml"] = None
  /\ EurLexMetaFile_init good_files (Some ["corpus"; "absent.xml"]) = Raise OSError
  /\ LocationParser_init (P := demo_platform) good_files ["corpus"; "absent.xml"]
     = Raise OSError.
Proof.
  split; [reflexivity|].
  destruct (missing_file_outcomes demo_platform good_files ["corpus"; "absent.xml"] eq_refl)
    as (Hmeta & _ & Hloc & _).
  exact (conj Hmeta Hloc).
Defined.

(** C3, counterexample.  Constructing a body document from a path that does
    not exist raises nothing: the constructor returns. *)
Lemma missing_body_document_is_not_fatal :
  EurLexDataFile_init (P := demo_platform) good_files (Some ["corpus"; "absent.xml"])
    false false None = Ok None
  /\ ~ (exists e, EurLexDataFile_init (P := demo_platform) good_files
                    (Some ["corpus"; "absent.xml"]) false false None = Raise e).
Proof.
  split; [reflexivity|]. intros [e He]. vm_compute in He. discriminate.
Qed.

(** ** Body documents and their dates *)

(** C2 at the failing input.  A well-formed body document without a
    [BIB.INSTANCE/DATE] element is constructed with an empty list of dates:
    nothing is raised inside the [try], so the replacement list is never
    assigned.  The item's date, [dates[0]], then raises [IndexError]. *)
Theorem undated_document_has_no_dates (P : Platform) :
  exists doc,
    EurLexDataFile_init fs_undated (Some good_body_path) false false None = Ok (Some doc)
    /\ dates doc = []
    /\ dates doc <> ["None"]
    /\ forall m, date (mkItem m (Some doc) None) = Raise IndexError.
Proof.
  eexists. split; [reflexivity|]. split; [reflexivity|]. split; [discriminate|].
  intros m. reflexivity.
Qed.

(** C7 at the failing input.  A [DATE] element without text gives [None] in
    the list of dates; [strptime] then raises [TypeError], which the handler
    for [ValueError] does not catch: the constructor raises and no list of
    dates, replacement or other, is assigned. *)
Theorem empty_date_element_raises (P : Platform) :
  map text (findall2 "BIB.INSTANCE" "DATE" empty_date_body_xml) = [Some "20110413"; None]
  /\ normalise_dates [Some "20110413"; None] = Raise TypeError
  /\ normalise_dates [None] = Raise TypeError
  /\ EurLexDataFile_init fs_empty_date (Some good_body_path) false false None
     = Raise TypeError.
Proof. repeat split. Qed.

(** What the date handling does for dates that are strings. *)
Section Dates.

Context `{P : Platform}.

Lemma strptime_string (s : string) :
  Datetime.strptime (Some s) = Raise ValueError
  \/ exists dt, Datetime.strptime (Some s) = Ok dt.
Proof.
  unfold Datetime.strptime. destruct (Datetime.regex_match s) as [[dt rest]|]; [|by left].
  destruct (negb (String.eqb rest "")); [by left|].
  destruct (Datetime.valid dt); [right; by exists dt | by left].
Qed.

Lemma format_dates_strings (ds : list string) :
  format_dates (map Some ds) =
  if forallb readable ds then Ok (map reformat ds) else Raise ValueError.
Proof.
  induction ds as [|s ds IH]; [reflexivity|].
  cbn [map format_dates forallb]. unfold readable at 1, reformat at 1.
  destruct (strptime_string s) as [-> | [dt ->]]; [reflexivity|].
  cbn [bind is_ok andb]. rewrite IH. by destruct (forallb readable ds).
Qed.

(** All or nothing: either every date is reformatted, or the list is the
    single replacement text. *)
Lemma normalise_dates_strings (ds : list string) :
  normalise_dates (map Some ds) =
  if forallb readable ds then Ok (map reformat ds) else Ok ["None"].
Proof.
  unfold normalise_dates. rewrite format_dates_strings.
  by destruct (forallb readable ds).
Qed.

Lemma normalise_dates_examples :
  normalise_dates [Some "20110413"] = Ok ["2011/04/13"]
  /\ normalise_dates [Some "20110413"; Some "badformat"] = Ok ["None"]
  /\ normalise_dates [Some "badformat"; Some "20110413"] = Ok ["None"].
Proof.
  unfold normalise_dates. cbn. destruct strftime_pads_year; repeat split.
Qed.

Lemma first_alt_ext {A} (alts : list Datetime.alt) (s : string)
    (k k' : nat -> string -> option A) :
  (forall v s', k v s' = k' v s') ->
  Datetime.first_alt alts s k = Datetime.first_alt alts s k'.
Proof.
  intros Hk. induction alts as [|a alts IH]; [reflexivity|].
  cbn [Datetime.first_alt]. destruct (a s) as [[v s']|]; [|exact IH].
  rewrite Hk, IH. reflexivity.
Qed.

Lemma first_alt_map {A B} (f : A -> B) (alts : list Datetime.alt) (s : string)
    (k : nat -> string -> option A) :
  Datetime.first_alt alts s (fun v s' => option_map f (k v s')) =
  option_map f (Datetime.first_alt alts s k).
Proof.
  induction alts as [|a alts IH]; [reflexivity|].
  cbn [Datetime.first_alt]. destruct (a s) as [[v s']|]; [|exact IH].
  destruct (k v s'); [reflexivity | exact IH].
Qed.

Lemma regex_match_month_day (s : string) :
  Datetime.regex_match s =
  match Datetime.directive_Y s with
  | Some (y, s1) =>
      option_map (fun '(m, d, r) => (Datetime.mkDate y m d, r)) (month_day s1)
  | None => None
  end.
Proof.
  unfold Datetime.regex_match, month_day.
  destruct (Datetime.directive_Y s) as [[y s1]|]; [|reflexivity].
  rewrite <- first_alt_map. apply first_alt_ext. intros m s2.
  rewrite <- first_alt_map. reflexivity.
Qed.

Lemma digit_digit_char (n : nat) : Datetime.digit (Datetime.digit_char n) = Some (n mod 10).
Proof.
  unfold Datetime.digit_char.
  pose proof (Nat.mod_upper_bound n 10 ltac:(lia)) as Hlt.
  destruct (n mod 10) as [|[|[|[|[|[|[|[|[|[|k]]]]]]]]]]; try reflexivity. lia.
Qed.

Lemma directive_Y_digits4 (y : nat) (rest : string) :
  y < 100 * 100 ->
  Datetime.directive_Y (Datetime.digits4 y +:+ rest) = Some (y, rest).
Proof.
  intros Hy. unfold Datetime.digits4.
  change (Datetime.directive_Y
            (String (Datetime.digit_char (y / 1000))
               (String (Datetime.digit_char (y / 100))
                  (String (Datetime.digit_char (y / 10))
                     (String (Datetime.digit_char y) rest)))) = Some (y, rest)).
  cbn [Datetime.directive_Y].
  rewrite !digit_digit_char. do 2 f_equal.
  pose proof (Nat.div_mod_eq y 10). pose proof (Nat.div_mod_eq (y / 10) 10).
  pose proof (Nat.div_mod_eq (y / 100) 10).
  assert (y / 100 = y / 10 / 10) by (by rewrite Nat.Div0.div_div).
  assert (y / 1000 = y / 100 / 10) by (by rewrite Nat.Div0.div_div).
  assert (y / 1000 < 10) by (apply Nat.Div0.div_lt_upper_bound; lia).
  rewrite (Nat.mod_small (y / 1000) 10) by assumption.
  lia.
Qed.

Lemma month_day_roundtrip_holds : month_day_roundtrip = true.
Proof. vm_compute. reflexivity. Qed.

Lemma month_day_digits2 (m d : nat) :
  1 <= m <= 12 -> 1 <= d <= 31 ->
  month_day (Datetime.digits2 m +:+ Datetime.digits2 d) = Some (m, d, "").
Proof.
  intros Hm Hd. pose proof month_day_roundtrip_holds as H.
  unfold month_day_roundtrip in H. rewrite forallb_forall in H.
  specialize (H m ltac:(apply in_seq; lia)). rewrite forallb_forall in H.
  specialize (H d ltac:(apply in_seq; lia)).
  destruct (month_day _) as [[[m' d'] rest]|]; [|discriminate].
  apply andb_true_iff in H as [H Hr]. apply andb_true_iff in H as [Hm' Hd'].
  apply Nat.eqb_eq in Hm', Hd'. apply String.eqb_eq in Hr. by subst.
Qed.

(** A valid date written as eight digits is read back as that date. *)
Lemma strptime_compact_form (dt : Datetime.date) :
  Datetime.valid dt = true ->
  Datetime.strptime (Some (compact_form dt)) = Ok dt.
Proof.
  intros Hv. pose proof Hv as Hv'. unfold Datetime.valid in Hv'.
  destruct dt as [y m d]. cbn [Datetime.year Datetime.month Datetime.day] in Hv'.
  repeat (apply andb_true_iff in Hv' as [Hv' ?]).
  repeat match goal with
         | H : (_ <=? _)%nat = true |- _ => apply Nat.leb_le in H
         | H : (_ <? _)%nat = true |- _ => apply Nat.ltb_lt in H
         end.
  assert (Hdim : Datetime.days_in_month y m <= 31).
  { unfold Datetime.days_in_month.
    do 12 (destruct m as [|m]; [try destruct (Datetime.is_leap y); lia|]). lia. }
  unfold Datetime.strptime, compact_form.
  cbn [Datetime.year Datetime.month Datetime.day].
  rewrite regex_match_month_day, directive_Y_digits4 by lia.
  rewrite month_day_digits2 by lia. cbn [option_map negb String.eqb].
  by rewrite Hv.
Qed.

(** Its slash-delimited form is what [strftime] prints, provided the year
    has four digits or the platform pads it. *)
Lemma strftime_slash_form (dt : Datetime.date) :
  strftime_pads_year = true \/ 1000 <= Datetime.year dt ->
  Datetime.strftime strftime_pads_year dt = slash_form dt.
Proof.
  unfold Datetime.strftime, slash_form. intros [-> | Hy]; [reflexivity|].
  destruct strftime_pads_year; [reflexivity|].
  unfold Datetime.digits.
  destruct (Nat.ltb_spec (Datetime.year dt) 10); [lia|].
  destruct (Nat.ltb_spec (Datetime.year dt) 100); [lia|].
  destruct (Nat.ltb_spec (Datetime.year dt) 1000); [lia|]. reflexivity.
Qed.

End Dates.

(** ** The location parser *)

Section Gazetteer.

Context `{P : Platform}.

Lemma compile_all_names (names : list string) (lp : list GeoRegex) :
  compile_all names = Ok lp -> map plain_name lp = names.
Proof.
  revert lp. induction names as [|n names IH]; intros lp.
  - by intros [= <-].
  - cbn [compile_all]. unfold GeoRegex_init at 1.
    destruct (re_compile _ _) as [r|]; [|discriminate]. cbn [bind].
    destruct (compile_all names) as [gs|]; [|discriminate]. cbn [bind].
    intros [= <-]. cbn [map plain_name]. by rewrite (IH gs).
Qed.

(** A round of the loop touches one key only. *)
Lemma count_one_other (text : string) (acc : gmap string nat) (g : GeoRegex)
    (name : string) :
  plain_name g <> name -> count_one text acc g !! name = acc !! name.
Proof.
  intros Hne. unfold count_one. destruct (GeoRegex_finditer g text); [reflexivity|].
  by rewrite lookup_insert_ne.
Qed.

Lemma call_untouched (text : string) (lp : list GeoRegex) (acc : gmap string nat)
    (name : string) :
  ~ In name (map plain_name lp) ->
  fold_left (count_one text) lp acc !! name = acc !! name.
Proof.
  revert acc. induction lp as [|g lp IH]; intros acc Hnot; [reflexivity|].
  cbn [fold_left]. rewrite IH by (intros H; apply Hnot; by right).
  apply count_one_other. intros H. apply Hnot. by left.
Qed.

(** With pairwise distinct names, the entry of a matcher is its number of
    matches, and is missing when there is no match. *)
Lemma call_lookup (text : string) (lp : list GeoRegex) (acc : gmap string nat)
    (g : GeoRegex) :
  NoDup (map plain_name lp) -> In g lp -> acc !! plain_name g = None ->
  fold_left (count_one text) lp acc !! plain_name g =
  match GeoRegex_finditer g text with
  | [] => None
  | ms => Some (length ms)
  end.
Proof.
  revert acc. induction lp as [|h lp IH]; intros acc Hnd Hin Hacc; [destruct Hin|].
  cbn [map] in Hnd. apply NoDup_cons in Hnd as [Hh Hnd]. cbn [fold_left].
  destruct Hin as [-> | Hin].
  - rewrite call_untouched by (by rewrite <- list_elem_of_In).
    unfold count_one. destruct (GeoRegex_finditer g text) as [|m ms]; [exact Hacc|].
    by rewrite lookup_insert_eq, Hacc.
  - apply IH; [exact Hnd | exact Hin |].
    rewrite count_one_other; [exact Hacc|].
    intros Heq. apply Hh. rewrite Heq. apply list_elem_of_In, in_map, Hin.
Qed.

Lemma NoDup_map_inj {A B} (f : A -> B) (l : list A) (x y : A) :
  NoDup (map f l) -> In x l -> In y l -> f x = f y -> x = y.
Proof.
  induction l as [|a l IH]; intros Hnd Hx Hy Heq; [destruct Hx|].
  cbn [map] in Hnd. apply NoDup_cons in Hnd as [Ha Hnd].
  destruct Hx as [-> | Hx], Hy as [-> | Hy]; [reflexivity | | | by apply IH].
  - exfalso. apply Ha. rewrite Heq. by apply list_elem_of_In, in_map.
  - exfalso. apply Ha. rewrite <- Heq. by apply list_elem_of_In, in_map.
Qed.

End Gazetteer.

(** C9.  Whatever regular-expression engine is used, a location parser built
    from a table has pairwise distinct names, one matcher for every name of
    the table however many keys list it; in the mapping it returns for a text
    a name is present exactly when its matcher finds a match, and its value
    is the number of matches found.  The keys of the mapping are names of the
    table, never aggregation keys as such. *)
Theorem gazetteer_names_counted_once (P : Platform) (geo_dict : list (string * list string))
    (lp : list GeoRegex) (Hinit : LocationParser_of_dict geo_dict = Ok lp) :
  NoDup (map plain_name lp)
  /\ (forall name, In name (map plain_name lp) <-> In name (all_geo_names geo_dict))
  /\ (forall g1 g2, In g1 lp -> In g2 lp -> plain_name g1 = plain_name g2 -> g1 = g2)
  /\ (forall text name n,
        LocationParser_call lp text !! name = Some n <->
        exists g, In g lp /\ plain_name g = name
                  /\ n = length (GeoRegex_finditer g text) /\ 0 < n).
Proof.
  unfold LocationParser_of_dict in Hinit. apply compile_all_names in Hinit.
  assert (Hnd : NoDup (map plain_name lp)) by (rewrite Hinit; apply NoDup_elements).
  split; [exact Hnd|]. split; [|split].
  - intros name. rewrite Hinit, <- !list_elem_of_In, elem_of_elements.
    apply elem_of_list_to_set.
  - intros g1 g2. by apply NoDup_map_inj.
  - intros text name n. unfold LocationParser_call. split.
    + intros Hlook.
      destruct (in_dec string_dec name (map plain_name lp)) as [Hin | Hnot].
      * apply in_map_iff in Hin as (g & <- & Hg).
        rewrite (call_lookup text lp ∅ g Hnd Hg (lookup_empty _)) in Hlook.
        exists g. destruct (GeoRegex_finditer g text) as [|m ms]; [discriminate|].
        injection Hlook as <-. repeat split; [done | cbn; lia].
      * rewrite call_untouched, lookup_empty in Hlook by exact Hnot. discriminate.
    + intros (g & Hg & <- & -> & Hpos).
      rewrite (call_lookup text lp ∅ g Hnd Hg (lookup_empty _)).
      destruct (GeoRegex_finditer g text); [cbn in Hpos; lia | reflexivity].
Qed.

Lemma gazetteer_names_counted_once_witness :
  LocationParser_of_dict (P := demo_platform) sample_geo_dict = Ok sample_parser
  /\ NoDup (map plain_name sample_parser)
  /\ length sample_parser = 3
  /\ LocationParser_call sample_parser sample_text !! "Luxembourg" = Some 2
  /\ LocationParser_call sample_parser sample_text !! "LU" = None.
Proof.
  assert (Hinit : LocationParser_of_dict (P := demo_platform) sample_geo_dict
                  = Ok sample_parser) by reflexivity.
  split; [exact Hinit|].
  split; [exact (proj1 (gazetteer_names_counted_once demo_platform sample_geo_dict
                          sample_parser Hinit))|].
  split; [reflexivity|]. split; vm_compute; reflexivity.
Defined.

(** ** Matching with the regular-expression fragment *)

(** The two texts of the specification, and a text in mixed case. *)
Lemma sudan_examples :
  GeoRegex_init (P := demo_platform) "Sudan" true true = Ok sudan_regex
  /\ GeoRegex_finditer sudan_regex "the Sudanese crisis" = []
  /\ LocationParser_call [sudan_regex] "the Sudanese crisis" !! "Sudan" = None
  /\ GeoRegex_finditer sudan_regex "South Sudan and Sudan" = [(16, 21)]
  /\ LocationParser_call [sudan_regex] "South Sudan and Sudan" !! "Sudan" = Some 1
  /\ GeoRegex_finditer sudan_regex "SUDAN, sudan and south sudan" = [(0, 5); (7, 12)].
Proof. repeat split; vm_compute; reflexivity. Qed.

(** *** Case *)

Lemma lower_char_idem (c : ascii) : Str.lower_char (Str.lower_char c) = Str.lower_char c.
Proof. destruct c as [[] [] [] [] [] [] [] []]; reflexivity. Qed.

Lemma is_word_lower_char (c : ascii) : Re.is_word (Str.lower_char c) = Re.is_word c.
Proof. destruct c as [[] [] [] [] [] [] [] []]; reflexivity. Qed.

Lemma list_ascii_lower (s : string) :
  list_ascii_of_string (Str.lower s) = map Str.lower_char (list_ascii_of_string s).
Proof. induction s as [|c s IH]; [reflexivity|]. cbn. by rewrite IH. Qed.

Lemma prefix_of_lower (lit l : list ascii) :
  Re.prefix_of true lit (map Str.lower_char l) = Re.prefix_of true lit l.
Proof.
  revert l. induction lit as [|a lit IH]; intros [|b l]; try reflexivity.
  cbn. unfold Re.char_eq. by rewrite lower_char_idem, IH.
Qed.

Lemma head_is_word_lower (l : list ascii) :
  Re.head_is_word (map Str.lower_char l) = Re.head_is_word l.
Proof. destruct l as [|c l]; [reflexivity|]. cbn. apply is_word_lower_char. Qed.

Lemma match_here_lower (p : Re.pattern) (before after : list ascii) :
  Re.match_here true p (map Str.lower_char before) (map Str.lower_char after) =
  Re.match_here true p before after.
Proof.
  revert before after. induction p as [|a p IH]; intros before after; [reflexivity|].
  destruct a as [c| |s|s]; cbn [Re.match_here].
  - destruct after as [|d after]; [reflexivity|]. cbn [map].
    unfold Re.char_eq. rewrite lower_char_idem.
    destruct (Ascii.eqb _ _); [|reflexivity].
    by rewrite <- (IH (d :: before) after).
  - by rewrite !head_is_word_lower, IH.
  - by rewrite prefix_of_lower, IH.
  - by rewrite prefix_of_lower, IH.
Qed.

Lemma scan_lower (p : Re.pattern) (after : list ascii) :
  forall skip pos before,
    Re.scan true p skip pos (map Str.lower_char before) (map Str.lower_char after) =
    Re.scan true p skip pos before after.
Proof.
  induction after as [|c after IH]; intros skip pos before.
  - destruct skip; cbn [Re.scan map]; [|reflexivity].
    pose proof (match_here_lower p before []) as H. cbn [map] in H. by rewrite H.
  - destruct skip; cbn [Re.scan map].
    + pose proof (match_here_lower p before (c :: after)) as H. cbn [map] in H. rewrite H.
      destruct (Re.match_here true p before (c :: after));
        by rewrite <- (IH _ _ (c :: before)).
    + by rewrite <- (IH _ _ (c :: before)).
Qed.

(** Matching under [re.IGNORECASE] does not see the case of the text. *)
Lemma finditer_lower (r : Re.compiled) (text : string) :
  Re.ignorecase r = true -> Re.finditer r (Str.lower text) = Re.finditer r text.
Proof.
  intros Hic. unfold Re.finditer. rewrite Hic, list_ascii_lower.
  apply (scan_lower (Re.atoms r) (list_ascii_of_string text) 0 0 []).
Qed.

(** *** Word boundaries *)

(** Where a match of the atoms ends, seen from the position it starts at. *)
Lemma match_here_split (ic : bool) (p q : Re.pattern) :
  forall before after n,
    Re.match_here ic (p ++ q) before after = Some n ->
    exists k m, n = k + m
      /\ Re.match_here ic p before after = Some k
      /\ Re.match_here ic q (rev (firstn k after) ++ before) (skipn k after) = Some m.
Proof.
  induction p as [|a p IH]; intros before after n Hm.
  - exists 0, n. by repeat split.
  - destruct a as [c| |s|s]; cbn [app Re.match_here] in Hm |- *.
    + destruct after as [|d after]; [discriminate|].
      destruct (Re.char_eq ic c d); [|discriminate].
      destruct (Re.match_here ic (p ++ q) (d :: before) after) as [n'|] eqn:Hn';
        [|discriminate].
      injection Hm as <-. apply IH in Hn' as (k & m & -> & Hk & Hq).
      exists (S k), m. rewrite Hk. repeat split.
      cbn [firstn skipn rev]. by rewrite <- app_assoc.
    + destruct (xorb _ _); [|discriminate]. by apply IH.
    + destruct (Re.prefix_of _ _ _); [discriminate|]. by apply IH.
    + destruct (Re.prefix_of _ _ _); [discriminate|]. by apply IH.
Qed.

(** Every span the scan reports is a match of the atoms at its start. *)
Lemma scan_spans (ic : bool) (p : Re.pattern) (after : list ascii) :
  forall skip pos before s e,
    In (s, e) (Re.scan ic p skip pos before after) ->
    exists k n, s = pos + k /\ e = s + n /\
      Re.match_here ic p (rev (firstn k after) ++ before) (skipn k after) = Some n.
Proof.
  induction after as [|c after IH]; intros skip pos before s e Hin.
  - destruct skip; cbn [Re.scan] in Hin; [|destruct Hin].
    destruct (Re.match_here ic p before []) as [n|] eqn:Hm; [|destruct Hin].
    destruct Hin as [[= <- <-] | []]. exists 0, n. repeat split; [lia|]. exact Hm.
  - assert (Hnext : forall skip',
               In (s, e) (Re.scan ic p skip' (S pos) (c :: before) after) ->
               exists k n, s = pos + k /\ e = s + n /\
                 Re.match_here ic p (rev (firstn k (c :: after)) ++ before)
                   (skipn k (c :: after)) = Some n).
    { intros skip' H. apply IH in H as (k & n & -> & -> & Hk). exists (S k), n.
      repeat split; [lia|]. cbn [firstn skipn rev]. by rewrite <- app_assoc. }
    destruct skip; cbn [Re.scan] in Hin; [|by apply Hnext in Hin].
    destruct (Re.match_here ic p before (c :: after)) as [n|] eqn:Hm;
      [|by apply Hnext in Hin].
    destruct Hin as [[= <- <-] | Hin]; [|by apply Hnext in Hin].
    exists 0, n. repeat split; [lia|]. exact Hm.
Qed.

Lemma firstn_plus {A} (l : list A) (n k : nat) :
  firstn (n + k) l = firstn n l ++ firstn k (skipn n l).
Proof.
  revert l. induction n as [|n IH]; intros [|x l]; cbn; try reflexivity.
  - by destruct k.
  - by rewrite IH.
Qed.

Lemma skipn_plus {A} (l : list A) (n k : nat) :
  skipn k (skipn n l) = skipn (n + k) l.
Proof.
  revert l. induction n as [|n IH]; intros [|x l]; cbn; try reflexivity.
  - by destruct k.
  - apply IH.
Qed.

(** A pattern that starts and ends with [\b] only matches between two word
    boundaries. *)
Lemma finditer_between_boundaries (r : Re.compiled) (mid : Re.pattern) (text : string)
    (s e : nat) :
  Re.atoms r = Re.WordB :: mid ++ [Re.WordB] ->
  In (s, e) (Re.finditer r text) ->
  s <= e /\ boundary text s = true /\ boundary text e = true.
Proof.
  intros Hatoms Hin. unfold Re.finditer in Hin. rewrite Hatoms in Hin.
  apply scan_spans in Hin as (k & n & Hs & -> & Hm). cbn in Hs. subst k.
  rewrite app_nil_r in Hm. cbn [Re.match_here] in Hm.
  unfold boundary. set (l := list_ascii_of_string text) in *.
  destruct (xorb (Re.head_is_word (rev (firstn s l))) (Re.head_is_word (skipn s l)))
    eqn:Hstart; [|discriminate].
  apply match_here_split in Hm as (k & m & -> & _ & Hend).
  cbn [Re.match_here] in Hend.
  rewrite <- rev_app_distr, <- firstn_plus, skipn_plus in Hend.
  destruct (xorb (Re.head_is_word (rev (firstn (s + k) l)))
                 (Re.head_is_word (skipn (s + k) l))) eqn:Hstop; [|discriminate].
  injection Hend as <-. rewrite Nat.add_0_r. repeat split; [lia | exact Hstop].
Qed.

(** *** The patterns [GeoRegex] compiles *)

Lemma append_cons (c : ascii) (s r : string) : String c s +:+ r = String c (s +:+ r).
Proof. reflexivity. Qed.

Lemma append_nil (r : string) : "" +:+ r = r.
Proof. reflexivity. Qed.

Lemma bind_ok {A B} (r : result A) (k : A -> result B) (b : B) :
  bind r k = Ok b -> exists a, r = Ok a /\ k a = Ok b.
Proof. destruct r as [a|]; [by exists a | discriminate]. Qed.

Lemma parse_Top_cons (c1 : ascii) (rest1 : string) :
  Re.parse Re.Top (String c1 rest1) =
  if Ascii.eqb c1 "\" then
    match rest1 with
    | String c2 rest2 =>
        if Ascii.eqb c2 "b"
        then let* p := Re.parse Re.Top rest2 in Ok (Re.WordB :: p)
        else Raise ReError
    | EmptyString => Raise ReError
    end
  else if Ascii.eqb c1 "(" then
    match rest1 with
    | String c2 (String c3 rest3) =>
        if Ascii.eqb c2 "?" && Ascii.eqb c3 "!" then Re.parse (Re.InLookahead "") rest3
        else if Ascii.eqb c2 "?" && Ascii.eqb c3 "<" then
          match rest3 with
          | String c4 rest4 =>
              if Ascii.eqb c4 "!" then Re.parse (Re.InLookbehind "") rest4
              else Raise ReError
          | EmptyString => Raise ReError
          end
        else Raise ReError
    | _ => Raise ReError
    end
  else if Re.is_meta c1 then Raise ReError
  else let* p := Re.parse Re.Top rest1 in Ok (Re.Lit c1 :: p).
Proof. reflexivity. Qed.

Lemma parse_lookbehind_cons (acc : string) (c : ascii) (rest : string) :
  Re.parse (Re.InLookbehind acc) (String c rest) =
  if Ascii.eqb c ")" then let* p := Re.parse Re.Top rest in Ok (Re.NegLookbehind acc :: p)
  else if Re.is_meta c then Raise ReError
  else Re.parse (Re.InLookbehind (acc +:+ String c "")) rest.
Proof. reflexivity. Qed.

Lemma parse_lookahead_cons (acc : string) (c : ascii) (rest : string) :
  Re.parse (Re.InLookahead acc) (String c rest) =
  if Ascii.eqb c ")" then let* p := Re.parse Re.Top rest in Ok (Re.NegLookahead acc :: p)
  else if Re.is_meta c then Raise ReError
  else Re.parse (Re.InLookahead (acc +:+ String c "")) rest.
Proof. reflexivity. Qed.

Lemma parse_snoc_WordB (n : nat) :
  forall s md q,
    String.length s <= n ->
    Re.parse md (s +:+ "\b") = Ok q -> exists mid, q = mid ++ [Re.WordB].
Proof.
  induction n as [|n IH]; intros s md q Hlen Hp.
  - destruct s; [|cbn in Hlen; lia]. rewrite append_nil in Hp.
    destruct md; cbn in Hp; try discriminate. injection Hp as <-. by exists [].
  - destruct s as [|c1 s1].
    { rewrite append_nil in Hp.
      destruct md; cbn in Hp; try discriminate. injection Hp as <-. by exists []. }
    cbn [String.length] in Hlen. rewrite append_cons in Hp.
    assert (Hrec : forall s' md' (f : Re.pattern -> Re.pattern) q',
               String.length s' <= n ->
               (let* p := Re.parse md' (s' +:+ "\b") in Ok (f p)) = Ok q' ->
               (forall mid, exists mid', f (mid ++ [Re.WordB]) = mid' ++ [Re.WordB]) ->
               exists mid, q' = mid ++ [Re.WordB]).
    { intros s' md' f q' Hl Hb Hf. apply bind_ok in Hb as (p & Hp' & [= <-]).
      apply IH in Hp' as [mid ->]; [apply Hf | exact Hl]. }
    destruct md as [|acc|acc];
      [rewrite parse_Top_cons in Hp
      |rewrite parse_lookbehind_cons in Hp
      |rewrite parse_lookahead_cons in Hp].
    + destruct (Ascii.eqb c1 "\").
      { destruct s1 as [|c2 s2]; [rewrite append_nil in Hp; cbn in Hp; discriminate|].
        rewrite append_cons in Hp.
        destruct (Ascii.eqb c2 "b"); [|discriminate].
        apply (Hrec s2 Re.Top (cons Re.WordB)) in Hp; [exact Hp | cbn in Hlen; lia |].
        intros mid. by exists (Re.WordB :: mid). }
      destruct (Ascii.eqb c1 "(").
      { destruct s1 as [|c2 [|c3 s3]].
        - rewrite append_nil in Hp. cbn in Hp. discriminate.
        - rewrite append_cons, append_nil in Hp. cbn in Hp.
          destruct (Ascii.eqb c2 "?"); discriminate.
        - rewrite !append_cons in Hp.
          destruct (Ascii.eqb c2 "?" && Ascii.eqb c3 "!").
          { apply (IH s3) in Hp; [exact Hp | cbn in Hlen; lia]. }
          destruct (Ascii.eqb c2 "?" && Ascii.eqb c3 "<"); [|discriminate].
          destruct s3 as [|c4 s4]; [rewrite append_nil in Hp; cbn in Hp; discriminate|].
          rewrite append_cons in Hp.
          destruct (Ascii.eqb c4 "!"); [|discriminate].
          apply (IH s4) in Hp; [exact Hp | cbn in Hlen; lia]. }
      destruct (Re.is_meta c1); [discriminate|].
      apply (Hrec s1 Re.Top (cons (Re.Lit c1))) in Hp; [exact Hp | lia |].
      intros mid. by exists (Re.Lit c1 :: mid).
    + destruct (Ascii.eqb c1 ")").
      { apply (Hrec s1 Re.Top (cons (Re.NegLookbehind acc))) in Hp; [exact Hp | lia |].
        intros mid. by exists (Re.NegLookbehind acc :: mid). }
      destruct (Re.is_meta c1); [discriminate|].
      apply (IH s1) in Hp; [exact Hp | lia].
    + destruct (Ascii.eqb c1 ")").
      { apply (Hrec s1 Re.Top (cons (Re.NegLookahead acc))) in Hp; [exact Hp | lia |].
        intros mid. by exists (Re.NegLookahead acc :: mid). }
      destruct (Re.is_meta c1); [discriminate|].
      apply (IH s1) in Hp; [exact Hp | lia].
Qed.

(** The atoms of a whole-word matcher start and end with a word boundary, and
    the matcher ignores case. *)
Lemma GeoRegex_whole_word (name : string) (g : GeoRegex (P := demo_platform)) :
  GeoRegex_init (P := demo_platform) name true true = Ok g ->
  Re.ignorecase (regex g) = true
  /\ exists mid, Re.atoms (regex g) = Re.WordB :: mid ++ [Re.WordB].
Proof.
  unfold GeoRegex_init. intros H. apply bind_ok in H as (r & Hr & [= <-]).
  cbn [regex]. cbn [re_compile demo_platform fragment_platform] in Hr.
  unfold Re.compile in Hr. apply bind_ok in Hr as (p & Hp & [= <-]).
  split; [reflexivity|]. cbn [Re.atoms].
  change ("\b" +:+ _preprocess name +:+ "\b")
    with (String "\" (String "b" (_preprocess name +:+ "\b"))) in Hp.
  rewrite parse_Top_cons in Hp. cbn [Ascii.eqb Bool.eqb andb] in Hp.
  apply bind_ok in Hp as (p' & Hp' & [= <-]).
  apply (parse_snoc_WordB _ _ _ _ (Nat.le_refl _)) in Hp' as [mid ->]. by exists mid.
Qed.

(** C8.  The matcher compiled for [Sudan] finds nothing in
    [the Sudanese crisis] and exactly one match, the second occurrence, in
    [South Sudan and Sudan]; the mapping of the location parser has no entry,
    respectively the entry 1, for [Sudan].  For every name the engine
    compiles, matching does not depend on the case of the text, and every
    match starts and ends at a word boundary. *)
Theorem gazetteer_matching_whole_word_case_insensitive :
  (GeoRegex_init (P := demo_platform) "Sudan" true true = Ok sudan_regex
   /\ GeoRegex_finditer sudan_regex "the Sudanese crisis" = []
   /\ LocationParser_call [sudan_regex] "the Sudanese crisis" !! "Sudan" = None
   /\ GeoRegex_finditer sudan_regex "South Sudan and Sudan" = [(16, 21)]
   /\ LocationParser_call [sudan_regex] "South Sudan and Sudan" !! "Sudan" = Some 1
   /\ GeoRegex_finditer sudan_regex "SUDAN, sudan and south sudan" = [(0, 5); (7, 12)])
  /\ (forall name g text,
        GeoRegex_init (P := demo_platform) name true true = Ok g ->
        GeoRegex_finditer g (Str.lower text) = GeoRegex_finditer g text)
  /\ (forall name g text s e,
        GeoRegex_init (P := demo_platform) name true true = Ok g ->
        In (s, e) (GeoRegex_finditer g text) ->
        s <= e /\ boundary text s = true /\ boundary text e = true).
Proof.
  split; [exact sudan_examples|]. split.
  - intros name g text Hg. apply GeoRegex_whole_word in Hg as [Hic _].
    by apply finditer_lower.
  - intros name g text s e Hg Hin. apply GeoRegex_whole_word in Hg as [_ [mid Hmid]].
    by apply (finditer_between_boundaries (regex g) mid).
Qed.

(** * Further properties *)

(** ** The metadata parser, field by field *)

Lemma string_app_nil_r (s : string) : s +:+ "" = s.
Proof. induction s as [|c s IH]; [reflexivity|]. rewrite append_cons. by rewrite IH. Qed.

Lemma string_app_assoc (a b c : string) : (a +:+ b) +:+ c = a +:+ (b +:+ c).
Proof. induction a as [|x a IH]; [reflexivity|]. rewrite !append_cons. by rewrite IH. Qed.

Lemma fold_left_append (l : list string) (acc : string) :
  fold_left String.append l acc = acc +:+ Str.concat l.
Proof.
  revert acc. induction l as [|x l IH]; intros acc; cbn [fold_left Str.concat fold_right].
  - by rewrite string_app_nil_r.
  - rewrite IH. apply string_app_assoc.
Qed.

Lemma apply_delta_empty (m : MetaFile) : apply_delta delta_empty m = m.
Proof.
  destruct m. unfold apply_delta, delta_empty, last_assigned. cbn.
  by rewrite !app_nil_r, string_app_nil_r.
Qed.

Lemma apply_delta_app (d1 d2 : delta) (m : MetaFile) :
  apply_delta (delta_app d1 d2) m = apply_delta d2 (apply_delta d1 m).
Proof.
  unfold apply_delta, delta_app.
  cbn [file_path authors coll com legval title main_pub sub_pubs
       d_authors d_coll d_com d_legval d_title d_main d_sub].
  rewrite !map_app, !last_assigned_app, string_app_assoc, !app_assoc. reflexivity.
Qed.

Lemma meta_on_start_delta (m : MetaFile) (path : list string) (e : Element) :
  meta_on_start m path e = Ok (apply_delta (start_delta path e) m, path ++ [tag e]).
Proof.
  unfold meta_on_start, start_delta.
  destruct (String.eqb (tag e) "TITLE" && in_path "PAPER" (path ++ [tag e])).
  - do 2 f_equal. destruct m. unfold apply_delta, set_title, last_assigned. cbn.
    by rewrite !app_nil_r, fold_left_append.
  - do 2 f_equal. symmetry. apply apply_delta_empty.
Qed.

Lemma attrib_get_raise (k : string) (a : list (string * string)) (e : exn) :
  attrib_get k a = Raise e -> e = KeyError.
Proof.
  induction a as [|[k' v] a IH]; cbn; [by intros [= <-]|].
  destruct (String.eqb k k'); [discriminate | exact IH].
Qed.

Ltac record_eq :=
  match goal with
  | m : MetaFile |- _ =>
      destruct m;
      unfold apply_delta, set_authors, set_coll, set_com, set_legval, set_main_pub,
        set_sub_pubs, last_assigned;
      cbn; rewrite ?app_nil_r, ?string_app_nil_r; reflexivity
  end.

(** The [end] step, in full: whether it gets through, which exception it
    raises when it does not, and what it adds to the record. *)
Lemma meta_on_end_delta (m : MetaFile) (path : list string) (e : Element) :
  meta_on_end m (path ++ [tag e]) e =
  if end_ok (last path) e
  then Ok (apply_delta (end_delta (last path) e) m, path)
  else Raise (if bool_decide (last path = None) then IndexError else KeyError).
Proof.
  unfold meta_on_end. rewrite index_neg2_snoc, pop_snoc.
  destruct e as [t a tx cs tl]. unfold end_ok, end_delta. cbn [tag text attrib].
  destruct (String.eqb_spec t "AUTHOR") as [->|Hauthor].
  { destruct tx; cbn; do 2 f_equal; record_eq. }
  destruct (String.eqb_spec t "COM") as [->|Hcom].
  { cbn. do 2 f_equal. record_eq. }
  destruct (String.eqb_spec t "COLL") as [->|Hcoll].
  { cbn. do 2 f_equal. record_eq. }
  destruct (String.eqb_spec t "LEGAL.VALUE") as [->|Hlv].
  { destruct (last path) as [par|]; [|reflexivity].
    rewrite (bool_decide_eq_true_2 (Some par <> None)) by done. cbn [bind andb].
    destruct (String.eqb_spec par "DOC.MAIN.PUB") as [->|Hp].
    - cbn. do 2 f_equal. record_eq.
    - rewrite (bool_decide_eq_false_2 (Some par = Some "DOC.MAIN.PUB")) by congruence.
      cbn. do 2 f_equal. record_eq. }
  destruct (String.eqb_spec t "REF.PHYS") as [->|Hrp].
  { destruct (last path) as [par|]; [|reflexivity]. cbn [bind andb orb].
    unfold has_attrib.
    destruct (String.eqb_spec par "DOC.MAIN.PUB") as [->|Hmain].
    - cbn [orb]. destruct (attrib_get "FILE" a) as [f|ex] eqn:Hf; cbn;
        [|by rewrite (attrib_get_raise _ _ _ Hf)].
      do 2 f_equal. record_eq.
    - rewrite (bool_decide_eq_false_2 (Some par = Some "DOC.MAIN.PUB")) by congruence.
      destruct (String.eqb_spec par "DOC.SUB.PUB") as [->|Hsub].
      + cbn [orb]. destruct (attrib_get "FILE" a) as [f|ex] eqn:Hf; cbn;
          [|by rewrite (attrib_get_raise _ _ _ Hf)].
        do 2 f_equal. record_eq.
      + rewrite (bool_decide_eq_false_2 (Some par = Some "DOC.SUB.PUB")) by congruence.
        cbn. do 2 f_equal. record_eq. }
  cbn. do 2 f_equal. record_eq.
Qed.

Lemma children_delta_fields (p : list string) (cs : list Element) :
  children_delta p cs =
  mkDelta (flat_map authors_of cs) (flat_map (texts_of "COLL") cs)
          (flat_map (texts_of "COM") cs) (flat_map (main_legvals (last p)) cs)
          (Str.concat (map (title_of p) cs))
          (flat_map (ref_files "DOC.MAIN.PUB" (last p)) cs)
          (flat_map (ref_files "DOC.SUB.PUB" (last p)) cs).
Proof.
  induction cs as [|c cs IH]; [reflexivity|].
  cbn [children_delta fold_right]. fold (children_delta p cs). rewrite IH. reflexivity.
Qed.

Lemma delta_of_unfold (path : list string) (t : string) a tx (cs : list Element) tl :
  delta_of path (Elem t a tx cs tl) =
  delta_app (start_delta path (Elem t a tx cs tl))
    (delta_app (children_delta (path ++ [t]) cs) (end_delta (last path) (Elem t a tx cs tl))).
Proof.
  rewrite children_delta_fields, last_snoc.
  unfold delta_of, delta_app, start_delta, end_delta.
  cbn [d_authors d_coll d_com d_legval d_title d_main d_sub tag app].
  by rewrite string_app_nil_r.
Qed.

Lemma parses_unfold (parent : option string) (t : string) a tx (cs : list Element) tl :
  parses parent (Elem t a tx cs tl) =
  forallb (parses (Some t)) cs && end_ok parent (Elem t a tx cs tl).
Proof. reflexivity. Qed.

(** The parsing loop over the events of one element, in full. *)
Lemma events_run (e : Element) :
  forall m path,
    for_events meta_step (m, path) (events_of e) =
    if parses (last path) e
    then Ok (apply_delta (delta_of path e) m, path)
    else Raise (fail_exn (last path) e).
Proof.
  induction e as [t a tx cs tl IHcs] using Element_nested_ind.
  intros m path.
  rewrite events_of_unfold, parses_unfold, delta_of_unfold.
  cbn [for_events meta_step fst snd]. rewrite meta_on_start_delta. cbn [bind tag].
  rewrite for_events_app.
  assert (Hchildren : forall m1,
             for_events meta_step (m1, path ++ [t]) (flat_map events_of cs) =
             if forallb (parses (Some t)) cs
             then Ok (apply_delta (children_delta (path ++ [t]) cs) m1, path ++ [t])
             else Raise KeyError).
  { induction IHcs as [|c cs Hc _ IH]; intros m1.
    - cbn. by rewrite apply_delta_empty.
    - cbn [flat_map forallb children_delta fold_right]. fold (children_delta (path ++ [t]) cs).
      rewrite for_events_app, Hc, last_snoc.
      destruct (parses (Some t) c); cbn [bind andb].
      + rewrite IH. destruct (forallb (parses (Some t)) cs); [|reflexivity].
        by rewrite apply_delta_app.
      + reflexivity. }
  rewrite Hchildren. unfold fail_exn. cbn [tag children].
  destruct (forallb (parses (Some t)) cs); cbn [bind andb for_events meta_step fst snd].
  - pose proof (meta_on_end_delta (apply_delta (children_delta (path ++ [t]) cs)
                                     (apply_delta (start_delta path (Elem t a tx cs tl)) m))
                  path (Elem t a tx cs tl)) as Hend.
    cbn [tag] in Hend. rewrite Hend.
    destruct (end_ok (last path) (Elem t a tx cs tl)); cbn [bind].
    + by rewrite !apply_delta_app.
    + by rewrite andb_true_r.
  - by rewrite andb_false_r.
Qed.

(** [EurLexMetaFile.__init__] on a well-formed document, in full. *)
Lemma metadata_record_of_tree (fs : filesystem) (p : Path) (f : file) (root : Element) :
  is_file fs p = Some f -> parsed f = WellFormed root ->
  EurLexMetaFile_init fs (Some p) =
  if parses None root
  then Ok (apply_delta (delta_of [] root) (meta_blank p))
  else Raise (fail_exn None root).
Proof.
  intros Hfile Hxml. unfold EurLexMetaFile_init, EurLexFile_init, iterparse.
  rewrite Hfile. cbn [bind]. rewrite Hfile, Hxml, events_run. cbn [last].
  by destruct (parses None root).
Qed.

Lemma metadata_record_fields (fs : filesystem) (p : Path) (f : file) (root : Element)
    (m : MetaFile) :
  is_file fs p = Some f -> parsed f = WellFormed root ->
  EurLexMetaFile_init fs (Some p) = Ok m ->
  m = apply_delta (delta_of [] root) (meta_blank p).
Proof.
  intros Hfile Hxml Hparse. rewrite (metadata_record_of_tree fs p f root Hfile Hxml) in Hparse.
  destruct (parses None root); [|discriminate]. by injection Hparse as <-.
Qed.

(** X1.  The authors of the record are the texts of the [AUTHOR] elements
    that have a text, in document order, duplicates kept. *)
Theorem authors_in_document_order (fs : filesystem) (p : Path) (f : file)
    (root : Element) (m : MetaFile)
    (Hfile : is_file fs p = Some f) (Hxml : parsed f = WellFormed root)
    (Hparse : EurLexMetaFile_init fs (Some p) = Ok m) :
  authors m = authors_of root.
Proof. by rewrite (metadata_record_fields fs p f root m Hfile Hxml Hparse). Qed.

Lemma authors_in_document_order_witness :
  EurLexMetaFile_init fs_rich (Some good_meta_path) = Ok rich_record
  /\ authors rich_record = authors_of rich_meta_xml
  /\ authors_of rich_meta_xml = ["CONSIL"; "CONSIL"].
Proof.
  split; [reflexivity|]. split; [|reflexivity].
  exact (authors_in_document_order fs_rich good_meta_path
           (mkFile "" (WellFormed rich_meta_xml)) rich_meta_xml rich_record
           eq_refl eq_refl eq_refl).
Defined.

(** X2.  The classification code and the collection code are the text of the
    last [COM], respectively [COLL], element of the document, and are absent
    when the document has no such element; an element without text makes
    the code absent again. *)
Theorem codes_last_occurrence_wins (fs : filesystem) (p : Path) (f : file)
    (root : Element) (m : MetaFile)
    (Hfile : is_file fs p = Some f) (Hxml : parsed f = WellFormed root)
    (Hparse : EurLexMetaFile_init fs (Some p) = Ok m) :
  com m = last_assigned None (texts_of "COM" root)
  /\ coll m = last_assigned None (texts_of "COLL" root).
Proof. by rewrite (metadata_record_fields fs p f root m Hfile Hxml Hparse). Qed.

Lemma codes_last_occurrence_wins_witness :
  EurLexMetaFile_init fs_rich (Some good_meta_path) = Ok rich_record
  /\ texts_of "COLL" rich_meta_xml = [Some "C"; Some "L"]
  /\ coll rich_record = last_assigned None (texts_of "COLL" rich_meta_xml).
Proof.
  split; [reflexivity|]. split; [reflexivity|].
  exact (proj2 (codes_last_occurrence_wins fs_rich good_meta_path
                  (mkFile "" (WellFormed rich_meta_xml)) rich_meta_xml rich_record
                  eq_refl eq_refl eq_refl)).
Defined.

Lemma in_path_snoc (x : string) (path : list string) (t : string) :
  in_path x (path ++ [t]) = in_path x path || String.eqb x t.
Proof. unfold in_path. rewrite existsb_app. cbn. by rewrite orb_false_r. Qed.

Lemma concat_all_empty (l : list string) :
  Forall (fun s => s = "") l -> Str.concat l = "".
Proof. induction 1 as [|s l -> _ IH]; [reflexivity|]. cbn. exact IH. Qed.

(** Without a [PAPER] element on the path or in the tree, nothing is gathered. *)
Lemma title_of_without_paper (e : Element) :
  forall path,
    in_path "PAPER" path = false -> has_tag "PAPER" e = false -> title_of path e = "".
Proof.
  induction e as [t a tx cs tl IHcs] using Element_nested_ind. intros path Hpath Htag.
  cbn [has_tag] in Htag. apply orb_false_iff in Htag as [Ht Hcs].
  cbn [title_of]. rewrite in_path_snoc, Hpath, (String.eqb_sym "PAPER" t), Ht, andb_false_r.
  rewrite append_nil. apply concat_all_empty.
  apply Forall_map. induction IHcs as [|c cs Hc _ IH]; constructor.
  - cbn [existsb] in Hcs. apply orb_false_iff in Hcs as [Hc' _].
    apply Hc; [|exact Hc']. by rewrite in_path_snoc, Hpath, (String.eqb_sym "PAPER" t), Ht.
  - apply IH. cbn [existsb] in Hcs. by apply orb_false_iff in Hcs as [_ ?].
Qed.



(** X4.  The record keeps the path it was built from.  Its main reference is
    the [FILE] attribute of the last [REF.PHYS] element directly under
    [DOC.MAIN.PUB], its sub-references are those of the [REF.PHYS] elements
    directly under [DOC.SUB.PUB] in document order, each resolved against the
    directory of the metadata file; [REF.PHYS] elements under any other
    parent are ignored. *)
Theorem references_resolved_by_parent (fs : filesystem) (p : Path) (f : file)
    (root : Element) (m : MetaFile)
    (Hfile : is_file fs p = Some f) (Hxml : parsed f = WellFormed root)
    (Hparse : EurLexMetaFile_init fs (Some p) = Ok m) :
  file_path m = p
  /\ main_pub m =
     last_assigned None
       (map (fun x => Some (Pathlib.join (Pathlib.parent p) x))
            (ref_files "DOC.MAIN.PUB" None root))
  /\ sub_pubs m =
     map (Pathlib.join (Pathlib.parent p)) (ref_files "DOC.SUB.PUB" None root).
Proof. by rewrite (metadata_record_fields fs p f root m Hfile Hxml Hparse). Qed.

Lemma references_resolved_by_parent_witness :
  EurLexMetaFile_init fs_rich (Some good_meta_path) = Ok rich_record
  /\ ref_files "DOC.SUB.PUB" None rich_meta_xml
     = ["L_2011100EN.01000102.xml"; "L_2011100EN.01000103.xml"]
  /\ sub_pubs rich_record =
     map (Pathlib.join (Pathlib.parent good_meta_path))
         (ref_files "DOC.SUB.PUB" None rich_meta_xml).
Proof.
  split; [reflexivity|]. split; [reflexivity|].
  exact (proj2 (proj2 (references_resolved_by_parent fs_rich good_meta_path
                         (mkFile "" (WellFormed rich_meta_xml)) rich_meta_xml rich_record
                         eq_refl eq_refl eq_refl))).
Defined.

(** X5.  On a well-formed document the constructor returns a record exactly
    when no [LEGAL.VALUE] or [REF.PHYS] element is the root and every
    [REF.PHYS] directly under [DOC.MAIN.PUB] or [DOC.SUB.PUB] has a [FILE]
    attribute.  Otherwise it raises: [IndexError] when the root has no parent
    entry on the path stack, [KeyError] for a missing attribute. *)
Theorem metadata_parse_outcome (fs : filesystem) (p : Path) (f : file) (root : Element)
    (Hfile : is_file fs p = Some f) (Hxml : parsed f = WellFormed root) :
  is_ok (EurLexMetaFile_init fs (Some p)) = parses None root
  /\ (parses None root = false ->
      EurLexMetaFile_init fs (Some p) = Raise (fail_exn None root))
  /\ (forall a tx cs tl,
        root = Elem "LEGAL.VALUE" a tx cs tl -> forallb (parses (Some "LEGAL.VALUE")) cs = true ->
        EurLexMetaFile_init fs (Some p) = Raise IndexError).
Proof.
  rewrite (metadata_record_of_tree fs p f root Hfile Hxml).
  split; [by destruct (parses None root)|]. split.
  - by intros ->.
  - intros a tx cs tl -> Hcs. rewrite parses_unfold, Hcs. unfold fail_exn. cbn.
    by rewrite Hcs.
Qed.

Lemma metadata_parse_outcome_witness :
  parses None no_file_attr_xml = false
  /\ EurLexMetaFile_init fs_no_file_attr (Some good_meta_path) = Raise KeyError
  /\ is_ok (EurLexMetaFile_init fs_rich (Some good_meta_path)) = parses None rich_meta_xml.
Proof.
  split; [reflexivity|]. split.
  - exact (proj1 (proj2 (metadata_parse_outcome fs_no_file_attr good_meta_path
                            (mkFile "" (WellFormed no_file_attr_xml)) no_file_attr_xml
                            eq_refl eq_refl)) eq_refl).
  - exact (proj1 (metadata_parse_outcome fs_rich good_meta_path
                     (mkFile "" (WellFormed rich_meta_xml)) rich_meta_xml
                     eq_refl eq_refl)).
Defined.

(** ** Legal bases *)

Lemma legbase_events (e : Element) :
  forall acc, for_events legbase_step acc (events_of e) = Ok (acc ++ visa_texts e).
Proof.
  induction e as [t a tx cs tl IHcs] using Element_nested_ind. intros acc.
  rewrite events_of_unfold. cbn [for_events legbase_step tag visa_texts].
  assert (Hstart : (if String.eqb t "VISA"
                    then Ok (acc ++ [fold_left String.append (itertext (Elem t a tx cs tl)) ""])
                    else Ok acc) =
                   Ok (acc ++ (if String.eqb t "VISA"
                               then [Str.concat (itertext (Elem t a tx cs tl))] else []))).
  { destruct (String.eqb t "VISA"); [|by rewrite app_nil_r].
    by rewrite fold_left_append, append_nil. }
  rewrite Hstart. clear Hstart. cbn [bind]. rewrite for_events_app.
  assert (Hchildren : forall acc',
             for_events legbase_step acc' (flat_map events_of cs) =
             Ok (acc' ++ flat_map visa_texts cs)).
  { induction IHcs as [|c cs Hc _ IH]; intros acc'.
    - cbn. by rewrite app_nil_r.
    - cbn [flat_map]. rewrite for_events_app, Hc. cbn [bind]. rewrite IH.
      by rewrite <- app_assoc. }
  rewrite Hchildren. cbn. by rewrite <- app_assoc.
Qed.

Lemma legbase_never_raises (evs : list event) :
  forall acc, exists r, for_events legbase_step acc evs = Ok r.
Proof.
  induction evs as [|ev evs IH]; intros acc; [by exists acc|].
  cbn [for_events]. destruct ev as [e|e]; cbn [legbase_step].
  - destruct (String.eqb (tag e) "VISA"); cbn [bind]; apply IH.
  - cbn [bind]. apply IH.
Qed.



(** ** Dates of a body document *)

Section DateOutcomes.

Context `{P : Platform}.

Lemma strptime_some_raise (s : string) (e : exn) :
  Datetime.strptime (Some s) = Raise e -> e = ValueError.
Proof.
  destruct (strptime_string s) as [H | [dt H]]; rewrite H; [by intros [= <-] | discriminate].
Qed.

Lemma format_dates_raise (ds : list (option string)) (e : exn) :
  format_dates ds = Raise e -> e = ValueError \/ (e = TypeError /\ In None ds).
Proof.
  induction ds as [|d ds IH]; [discriminate|]. cbn [format_dates].
  destruct d as [s|].
  - destruct (Datetime.strptime (Some s)) as [dt|e'] eqn:Hs; cbn [bind].
    + destruct (format_dates ds) as [r|e'']; cbn [bind]; [discriminate|].
      intros [= <-]. destruct (IH eq_refl) as [-> | [-> Hin]]; [by left|].
      right. split; [done | by right].
    + intros [= <-]. left. by apply (strptime_some_raise s).
  - cbn. intros [= <-]. right. split; [done | by left].
Qed.

Lemma format_dates_ok (ds : list (option string)) (out : list string) :
  format_dates ds = Ok out ->
  exists ss, ds = map Some ss /\ forallb readable ss = true /\ out = map reformat ss.
Proof.
  revert out. induction ds as [|d ds IH]; intros out.
  - intros [= <-]. by exists [].
  - cbn [format_dates]. destruct d as [s|]; [|discriminate].
    destruct (Datetime.strptime (Some s)) as [dt|] eqn:Hs; [|discriminate]. cbn [bind].
    destruct (format_dates ds) as [r|]; [|discriminate]. cbn [bind]. intros [= <-].
    destruct (IH r eq_refl) as (ss & -> & Hall & ->). exists (s :: ss).
    split; [reflexivity|]. cbn [forallb map]. split.
    + change (readable s) with (is_ok (Datetime.strptime (Some s))).
      rewrite Hs. exact Hall.
    + change (reformat s) with (match Datetime.strptime (Some s) with
                                | Ok dt => Datetime.strftime strftime_pads_year dt
                                | Raise _ => ""
                                end).
      by rewrite Hs.
Qed.

End DateOutcomes.

(** X7.  The only exception the date handling of a body document lets
    through is [TypeError], and only when some [DATE] element has no text;
    a [ValueError] never leaves it. *)
Theorem date_handling_raises_only_type_error (P : Platform) (ds : list (option string))
    (e : exn) (Hraise : normalise_dates ds = Raise e) :
  e = TypeError /\ In None ds.
Proof.
  unfold normalise_dates in Hraise.
  destruct (format_dates ds) as [r|e'] eqn:Hf; [discriminate|].
  destruct (format_dates_raise ds e' Hf) as [-> | [-> Hin]]; [discriminate|].
  by injection Hraise as <-.
Qed.

Lemma date_handling_raises_only_type_error_witness :
  normalise_dates (P := demo_platform) [Some "20110413"; None] = Raise TypeError
  /\ In None [Some "20110413"; None].
Proof.
  split; [reflexivity|].
  exact (proj2 (date_handling_raises_only_type_error demo_platform
                  [Some "20110413"; None] TypeError eq_refl)).
Defined.



(** X9.  A valid date written as eight digits comes back in the form
    year/month/day, month and day with two digits, provided the year has
    four digits or the platform pads shorter years. *)
Theorem compact_date_reformatted (P : Platform) (dt : Datetime.date)
    (Hvalid : Datetime.valid dt = true)
    (Hyear : strftime_pads_year = true \/ 1000 <= Datetime.year dt) :
  normalise_dates [Some (compact_form dt)] = Ok [slash_form dt].
Proof.
  unfold normalise_dates. cbn [format_dates].
  rewrite (strptime_compact_form dt Hvalid). cbn [bind].
  by rewrite (strftime_slash_form dt Hyear).
Qed.

Lemma compact_date_reformatted_witness :
  compact_form date_2011_04_13 = "20110413"
  /\ slash_form date_2011_04_13 = "2011/04/13"
  /\ normalise_dates (P := demo_platform) [Some (compact_form date_2011_04_13)]
     = Ok [slash_form date_2011_04_13].
Proof.
  split; [reflexivity|]. split; [reflexivity|].
  apply (compact_date_reformatted demo_platform date_2011_04_13).
  - reflexivity.
  - left. reflexivity.
Defined.

(** ** The corpus *)

(** A record that was constructed carries the path it was constructed from. *)
Lemma meta_init_path (fs : filesystem) (f : Path) (m : MetaFile) :
  EurLexMetaFile_init fs (Some f) = Ok m -> file_path m = f.
Proof.
  intros Hinit. pose proof Hinit as Hinit'.
  unfold EurLexMetaFile_init, EurLexFile_init, iterparse in Hinit'.
  destruct (is_file fs f) as [fl|] eqn:Hfile; [|discriminate]. cbn [bind] in Hinit'.
  rewrite Hfile in Hinit'.
  destruct (parsed fl) as [root|seen] eqn:Hxml.
  - by rewrite (metadata_record_fields fs f fl root m Hfile Hxml Hinit).
  - destruct (for_events meta_step (meta_blank f, []) seen); discriminate.
Qed.

Section Corpus.

Context `{P : Platform}.

Lemma load_items_invariant (fs : filesystem) (tok lb : bool)
    (lp : option (list GeoRegex)) (files : list Path) :
  forall acc items,
    load_items fs tok lb lp files acc = Ok items ->
    exists new, items = acc ++ new
      /\ Forall selected new
      /\ sublist (map (fun it => file_path (meta it)) new) files.
Proof.
  induction files as [|f files IH]; intros acc items Hload.
  - injection Hload as <-. exists []. rewrite app_nil_r. repeat split; constructor.
  - cbn [load_items] in Hload.
    destruct (EurLexMetaFile_init fs (Some f)) as [m|] eqn:Hm; [|discriminate].
    cbn [bind] in Hload. destruct (is_dec m) eqn:Hdec.
    + destruct (EurLexDataFile_init fs (main_pub m) tok lb lp) as [d|]; [|discriminate].
      cbn [bind] in Hload. destruct (is_cfsp (mkItem m d None)) eqn:Hcfsp.
      * apply IH in Hload as (new & -> & Hsel & Hsub).
        exists (mkItem m d None :: new). rewrite <- app_assoc. split; [reflexivity|].
        split; [constructor; [by repeat split | exact Hsel]|].
        cbn [map meta]. rewrite (meta_init_path fs f m Hm). by apply sublist_skip.
      * apply IH in Hload as (new & -> & Hsel & Hsub). exists new.
        repeat split; [exact Hsel | by apply sublist_cons].
    + apply IH in Hload as (new & -> & Hsel & Hsub). exists new.
      repeat split; [exact Hsel | by apply sublist_cons].
Qed.

End Corpus.

(** X10.  A corpus that loads holds only decisions on foreign and security
    policy, none with sub-documents; its items follow the order of the file
    list, at most one per listed file, so it never has more items than
    files were listed. *)
Theorem corpus_items_are_selected (P : Platform) (fs : filesystem) (root : Path)
    (tokenize parse_legal_bases parse_locations : bool) (ds : EurLexDataset)
    (Hinit : EurLexDataset_init fs root tokenize parse_legal_bases parse_locations = Ok ds) :
  data_root ds = root
  /\ _list_meta_files fs root = Ok (file_list ds)
  /\ Forall selected (items ds)
  /\ sublist (map (fun it => file_path (meta it)) (items ds)) (file_list ds)
  /\ length (items ds) <= length (file_list ds).
Proof.
  unfold EurLexDataset_init in Hinit.
  destruct (_list_meta_files fs root) as [files|]; [|discriminate]. cbn [bind] in Hinit.
  destruct (if parse_locations then _ else _) as [lp|]; [|discriminate].
  cbn [bind] in Hinit.
  destruct (load_items fs tokenize parse_legal_bases lp files []) as [its|] eqn:Hload;
    [|discriminate].
  cbn [bind] in Hinit. injection Hinit as <-. cbn [data_root file_list items].
  apply load_items_invariant in Hload as (new & -> & Hsel & Hsub). cbn [app].
  repeat split; [exact Hsel | exact Hsub |].
  apply sublist_length in Hsub. by rewrite length_map in Hsub.
Qed.

Lemma corpus_items_are_selected_witness :
  EurLexDataset_init (P := demo_platform) fs_good_only ["corpus"] false false false
  = Ok good_dataset
  /\ Forall selected (items good_dataset)
  /\ length (items good_dataset) <= length (file_list good_dataset).
Proof.
  assert (Hinit : EurLexDataset_init (P := demo_platform) fs_good_only ["corpus"]
                    false false false = Ok good_dataset) by reflexivity.
  destruct (corpus_items_are_selected demo_platform fs_good_only ["corpus"]
              false false false good_dataset Hinit) as (_ & _ & Hsel & _ & Hlen).
  exact (conj Hinit (conj Hsel Hlen)).
Defined.

(** *** Exports *)

Lemma map_result_is_ok {A B} (f : A -> result B) (l : list A) :
  is_ok (map_result f l) = forallb (fun x => is_ok (f x)) l.
Proof.
  induction l as [|x l IH]; [reflexivity|]. cbn [map_result forallb].
  destruct (f x); cbn [bind is_ok andb]; [|reflexivity].
  rewrite <- IH. by destruct (map_result f l).
Qed.

Lemma forallb_pointwise {A} (f g : A -> bool) (l : list A) :
  (forall x, f x = g x) -> forallb f l = forallb g l.
Proof. intros H. induction l as [|x l IH]; [reflexivity|]. cbn. by rewrite H, IH. Qed.

Lemma map_result_all_ok {A B} (f : A -> result B) (g : A -> B) (l : list A) :
  Forall (fun x => f x = Ok (g x)) l -> map_result f l = Ok (map g l).
Proof.
  induction 1 as [|x l Hx _ IH]; [reflexivity|].
  cbn [map_result map]. by rewrite Hx, IH.
Qed.

(** The summary of one item: the collection code is needed first, then the
    body document, then a date. *)
Lemma EurLexItem_str_outcome (it : EurLexItem) :
  EurLexItem_str it =
  if has_coll it then
    match main_doc it with
    | None => Raise AttributeError
    | Some d => match dates d with [] => Raise IndexError | _ :: _ => Ok (header_line it) end
    end
  else Raise TypeError.
Proof.
  unfold EurLexItem_str, EurLexMetaFile_str, py_join, has_coll, header_line, date.
  cbn [all_str]. destruct (coll (meta it)) as [c|]; cbn [bind all_str]; [|reflexivity].
  destruct (main_doc it) as [d|]; [|reflexivity].
  destruct (dates d) as [|x xs]; reflexivity.
Qed.

Lemma to_txt_is_ok (it : EurLexItem) : is_ok (to_txt it) = has_date it.
Proof.
  unfold to_txt, has_date, date.
  destruct (main_doc it) as [d|]; [|reflexivity].
  destruct (dates d); reflexivity.
Qed.

(** X11.  The headers export succeeds exactly when every item has a
    collection code, a constructed body document and at least one date, and
    then writes one comma-joined line per item, in order; the full-text
    export succeeds exactly when every item has a constructed body document
    with at least one date.  One item short of that fails the whole export. *)
Theorem export_outcome (ds : EurLexDataset) :
  is_ok (dump_to_txt ds headers) = forallb (fun it => has_coll it && has_date it) (items ds)
  /\ is_ok (dump_to_txt ds text_mode) = forallb has_date (items ds)
  /\ (forallb (fun it => has_coll it && has_date it) (items ds) = true ->
      dump_to_txt ds headers = Ok (Str.join (String "010" "") (map header_line (items ds)))).
Proof.
  assert (Hstr : forall it, is_ok (EurLexItem_str it) = has_coll it && has_date it).
  { intros it. rewrite EurLexItem_str_outcome. unfold has_date.
    destruct (has_coll it); [|reflexivity].
    destruct (main_doc it) as [d|]; [|reflexivity]. by destruct (dates d). }
  assert (Hheaders : is_ok (dump_to_txt ds headers)
                     = forallb (fun it => has_coll it && has_date it) (items ds)).
  { unfold dump_to_txt.
    transitivity (is_ok (map_result EurLexItem_str (items ds)));
      [by destruct (map_result EurLexItem_str (items ds))|].
    rewrite map_result_is_ok. apply forallb_pointwise. exact Hstr. }
  split; [exact Hheaders|]. split.
  - unfold dump_to_txt.
    transitivity (is_ok (map_result to_txt (items ds)));
      [by destruct (map_result to_txt (items ds))|].
    rewrite map_result_is_ok. apply forallb_pointwise. exact to_txt_is_ok.
  - intros Hall. unfold dump_to_txt. rewrite (map_result_all_ok EurLexItem_str header_line); [reflexivity|].
    apply Forall_forall. intros it Hin. apply list_elem_of_In in Hin.
    rewrite forallb_forall in Hall. specialize (Hall it Hin). apply andb_true_iff in Hall as [Hc Hd].
    rewrite EurLexItem_str_outcome, Hc. unfold has_date in Hd.
    destruct (main_doc it) as [d|]; [|discriminate]. by destruct (dates d).
Qed.

(** *** Decisions without a body *)

(** X12.  A decision whose main body file does not exist is not skipped: it
    enters the corpus, when it is on foreign and security policy, with a
    body on which no attribute is set.  Its date and its full-text rendering
    then raise [AttributeError], and its summary cannot be produced either. *)
Theorem missing_body_item_is_kept (P : Platform) (fs : filesystem) (tok lb : bool)
    (lp : option (list GeoRegex)) (f q : Path) (m : MetaFile) (rest : list Path)
    (acc : list EurLexItem)
    (Hmeta : EurLexMetaFile_init fs (Some f) = Ok m)
    (Hdec : is_dec m = true)
    (Hmain : main_pub m = Some q)
    (Hmissing : is_file fs q = None)
    (Hcfsp : is_cfsp (mkItem m None None) = true) :
  load_items fs tok lb lp (f :: rest) acc
  = load_items fs tok lb lp rest (acc ++ [mkItem m None None])
  /\ date (mkItem m None None) = Raise AttributeError
  /\ to_txt (mkItem m None None) = Raise AttributeError
  /\ is_ok (EurLexItem_str (mkItem m None None)) = false.
Proof.
  split; [|split; [reflexivity|split; [reflexivity|]]].
  - cbn [load_items]. rewrite Hmeta. cbn [bind]. rewrite Hdec, Hmain.
    unfold EurLexDataFile_init, EurLexFile_init. rewrite Hmissing. cbn [bind].
    by rewrite Hcfsp.
  - rewrite EurLexItem_str_outcome. cbn [main_doc]. by destruct (has_coll _).
Qed.

Lemma missing_body_item_is_kept_witness :
  EurLexMetaFile_init fs_body_missing (Some good_meta_path) = Ok good_record
  /\ is_file fs_body_missing good_body_path = None
  /\ load_items (P := demo_platform) fs_body_missing false false None [good_meta_path] []
     = Ok [mkItem good_record None None].
Proof.
  split; [reflexivity|]. split; [reflexivity|].
  exact (proj1 (missing_body_item_is_kept demo_platform fs_body_missing false false None
                  good_meta_path good_body_path good_record [] []
                  eq_refl eq_refl eq_refl eq_refl eq_refl)).
Defined.

(** X13.  A decision whose metadata names no main body aborts the assembly:
    the body constructor is handed [None] in place of a path and raises
    [ValueError], which nothing catches. *)
Theorem decision_without_main_reference_aborts (P : Platform) (fs : filesystem)
    (tok lb : bool) (lp : option (list GeoRegex)) (f : Path) (m : MetaFile)
    (rest : list Path) (acc : list EurLexItem)
    (Hmeta : EurLexMetaFile_init fs (Some f) = Ok m)
    (Hdec : is_dec m = true)
    (Hmain : main_pub m = None) :
  load_items fs tok lb lp (f :: rest) acc = Raise ValueError.
Proof.
  cbn [load_items]. rewrite Hmeta. cbn [bind]. by rewrite Hdec, Hmain.
Qed.

Lemma decision_without_main_reference_aborts_witness :
  EurLexMetaFile_init fs_no_main (Some good_meta_path) = Ok no_main_record
  /\ load_items (P := demo_platform) fs_no_main false false None [good_meta_path] []
     = Raise ValueError
  /\ EurLexDataset_init (P := demo_platform) fs_no_main ["corpus"] false false false
     = Raise ValueError.
Proof.
  split; [reflexivity|]. split; [|reflexivity].
  exact (decision_without_main_reference_aborts demo_platform fs_no_main false false None
           good_meta_path no_main_record [] [] eq_refl eq_refl eq_refl).
Defined.

(** ** Matchers of the gazetteer *)

Lemma finditer_match (r : Re.compiled) (text : string) (s e : nat) :
  In (s, e) (Re.finditer r text) ->
  exists n, e = s + n /\
    Re.match_here (Re.ignorecase r) (Re.atoms r)
      (rev (firstn s (list_ascii_of_string text)))
      (skipn s (list_ascii_of_string text)) = Some n.
Proof.
  intros Hin. unfold Re.finditer in Hin.
  apply scan_spans in Hin as (k & n & Hs & -> & Hm). cbn in Hs. subst k.
  rewrite app_nil_r in Hm. by exists n.
Qed.

(** Literal atoms match the text they spell, and nothing else. *)
Lemma match_here_literals (ic : bool) (name : list ascii) (rest : Re.pattern) :
  forall before after n,
    Re.match_here ic (map Re.Lit name ++ rest) before after = Some n ->
    Re.prefix_of ic name after = true
    /\ exists m, n = length name + m
         /\ Re.match_here ic rest (rev (firstn (length name) after) ++ before)
              (skipn (length name) after) = Some m.
Proof.
  induction name as [|c name IH]; intros before after n Hm.
  - split; [reflexivity|]. by exists n.
  - cbn [map app Re.match_here] in Hm. destruct after as [|d after]; [discriminate|].
    cbn [Re.prefix_of]. destruct (Re.char_eq ic c d); [|discriminate].
    destruct (Re.match_here ic (map Re.Lit name ++ rest) (d :: before) after) as [n'|] eqn:Hn';
      [|discriminate].
    injection Hm as <-. apply IH in Hn' as (Hpre & m & -> & Hrest).
    split; [exact Hpre|]. exists m. split; [reflexivity|].
    cbn [length firstn skipn rev]. by rewrite <- app_assoc.
Qed.

Lemma qualified_regex_compiles (name q : string) (before : bool) :
  In (name, q, before) qualified_names ->
  GeoRegex_init (P := demo_platform) name true true = Ok (qualified_regex name q before).
Proof.
  intros Hin. cbn in Hin.
  repeat (destruct Hin as [[= <- <- <-] | Hin]; [reflexivity|]). destruct Hin.
Qed.

(** X14.  The curated overrides do what they are for, on every text: the
    matcher of a qualified name compiles, and none of its matches stands
    right after, respectively right before, the qualifier of the name,
    whatever the case of the letters; every match still spells the name. *)
Theorem qualified_occurrences_are_excluded (name q : string) (before : bool)
    (text : string) (s e : nat)
    (Hname : In (name, q, before) qualified_names)
    (Hmatch : In (s, e) (GeoRegex_finditer (qualified_regex name q before) text)) :
  GeoRegex_init (P := demo_platform) name true true = Ok (qualified_regex name q before)
  /\ (if before then preceded_by q text s else followed_by q text e) = false
  /\ spells name text s = true
  /\ e = s + String.length name.
Proof.
  split; [by apply qualified_regex_compiles|].
  apply finditer_match in Hmatch as (n & -> & Hm).
  unfold preceded_by, followed_by, spells.
  set (l := list_ascii_of_string text) in *.
  cbn [regex qualified_regex Re.atoms Re.ignorecase] in Hm.
  assert (Hlen : length (list_ascii_of_string name) = String.length name).
  { clear. induction name; [reflexivity|]. cbn. by f_equal. }
  destruct before; cbn [Re.match_here] in Hm.
  - destruct (xorb _ _); [|discriminate].
    destruct (Re.prefix_of true (rev (list_ascii_of_string q)) (rev (firstn s l))) eqn:Hq;
      [discriminate|].
    apply match_here_literals in Hm as (Hsp & m & -> & Hrest).
    cbn [Re.match_here] in Hrest. destruct (xorb _ _); [|discriminate].
    injection Hrest as <-. repeat split; [exact Hsp | lia].
  - destruct (xorb _ _); [|discriminate].
    apply match_here_literals in Hm as (Hsp & m & -> & Hrest).
    cbn [Re.match_here] in Hrest.
    rewrite skipn_plus in Hrest.
    destruct (Re.prefix_of true (list_ascii_of_string q)
                (skipn (s + length (list_ascii_of_string name)) l)) eqn:Hq;
      [discriminate|].
    destruct (xorb _ _); [|discriminate]. injection Hrest as <-.
    rewrite Nat.add_0_r, <- Hlen. repeat split; [exact Hq | exact Hsp].
Qed.

Lemma qualified_occurrences_are_excluded_witness :
  In ("Sudan", "South ", true) qualified_names
  /\ In (16, 21) (GeoRegex_finditer (qualified_regex "Sudan" "South " true)
                    "South Sudan and Sudan")
  /\ preceded_by "South " "South Sudan and Sudan" 16 = false
  /\ preceded_by "South " "South Sudan and Sudan" 6 = true.
Proof.
  assert (Hname : In ("Sudan", "South ", true) qualified_names) by (right; left; reflexivity).
  assert (Hmatch : In (16, 21) (GeoRegex_finditer (qualified_regex "Sudan" "South " true)
                                  "South Sudan and Sudan")) by (left; reflexivity).
  split; [exact Hname|]. split; [exact Hmatch|]. split; [|reflexivity].
  exact (proj1 (proj2 (qualified_occurrences_are_excluded "Sudan" "South " true
                         "South Sudan and Sudan" 16 21 Hname Hmatch))).
Defined.

Lemma not_meta_not_special (c : ascii) :
  Re.is_meta c = false -> Ascii.eqb c "\" = false /\ Ascii.eqb c "(" = false.
Proof.
  unfold Re.is_meta. cbn [list_ascii_of_string existsb].
  intros H. repeat (apply orb_false_iff in H as [? H]). by split.
Qed.

(** A name without metacharacters is parsed as its own letters. *)
Lemma parse_plain (name tail : string) :
  no_meta name = true ->
  Re.parse Re.Top (name +:+ tail) =
  let* p := Re.parse Re.Top tail in Ok (map Re.Lit (list_ascii_of_string name) ++ p).
Proof.
  unfold no_meta. induction name as [|c name IH]; intros Hplain.
  - rewrite append_nil. by destruct (Re.parse Re.Top tail).
  - cbn [list_ascii_of_string forallb] in Hplain.
    apply andb_true_iff in Hplain as [Hc Hrest]. apply negb_true_iff in Hc.
    destruct (not_meta_not_special c Hc) as [Hbs Hpar].
    rewrite append_cons, parse_Top_cons, Hbs, Hpar, Hc, (IH Hrest).
    by destruct (Re.parse Re.Top tail).
Qed.

Lemma word_regex_compiles (name : string) :
  no_meta name = true -> _preprocess name = name ->
  GeoRegex_init (P := demo_platform) name true true = Ok (word_regex name).
Proof.
  intros Hplain Hsame. unfold GeoRegex_init. rewrite Hsame.
  cbn [re_compile demo_platform fragment_platform]. unfold Re.compile.
  change ("\b" +:+ name +:+ "\b") with (String "\" (String "b" (name +:+ "\b"))).
  rewrite parse_Top_cons. cbn [Ascii.eqb Bool.eqb andb].
  rewrite (parse_plain name "\b" Hplain).
  reflexivity.
Qed.

(** X15.  A name without regular-expression metacharacters that is not one
    of the overrides compiles to the whole-word matcher of its own letters:
    every match spells the name, whatever the case, has the length of the
    name and lies between two word boundaries. *)
Theorem plain_name_matches_spell_the_name (name text : string) (s e : nat)
    (Hplain : no_meta name = true)
    (Hsame : _preprocess name = name)
    (Hmatch : In (s, e) (GeoRegex_finditer (word_regex name) text)) :
  GeoRegex_init (P := demo_platform) name true true = Ok (word_regex name)
  /\ spells name text s = true
  /\ e = s + String.length name
  /\ boundary text s = true /\ boundary text e = true.
Proof.
  split; [by apply word_regex_compiles|].
  destruct (finditer_between_boundaries (regex (word_regex name))
              (map Re.Lit (list_ascii_of_string name)) text s e eq_refl Hmatch)
    as (_ & Hbs & Hbe).
  apply finditer_match in Hmatch as (n & -> & Hm).
  cbn [regex word_regex Re.atoms Re.ignorecase word_atoms Re.match_here] in Hm.
  destruct (xorb _ _); [|discriminate].
  apply match_here_literals in Hm as (Hsp & m & -> & Hrest).
  cbn [Re.match_here] in Hrest. destruct (xorb _ _); [|discriminate].
  injection Hrest as <-.
  assert (Hlen : length (list_ascii_of_string name) = String.length name).
  { clear. induction name; [reflexivity|]. cbn. by f_equal. }
  rewrite Nat.add_0_r, Hlen in *. by repeat split.
Qed.

Lemma plain_name_matches_spell_the_name_witness :
  no_meta "Luxembourg" = true
  /\ In (15, 25) (GeoRegex_finditer (word_regex "Luxembourg") sample_text)
  /\ spells "Luxembourg" sample_text 15 = true.
Proof.
  assert (Hplain : no_meta "Luxembourg" = true) by (vm_compute; reflexivity).
  assert (Hsame : _preprocess "Luxembourg" = "Luxembourg") by (vm_compute; reflexivity).
  assert (Hfound : GeoRegex_finditer (word_regex "Luxembourg") sample_text
                   = [(0, 10); (15, 25)]) by (vm_compute; reflexivity).
  assert (Hmatch : In (15, 25) (GeoRegex_finditer (word_regex "Luxembourg") sample_text))
    by (rewrite Hfound; right; left; reflexivity).
  split; [exact Hplain|]. split; [exact Hmatch|].
  exact (proj1 (proj2 (plain_name_matches_spell_the_name "Luxembourg" sample_text 15 25
                         Hplain Hsame Hmatch))).
Defined.

(** ** The gazetteer table *)

Lemma dict_lookup_set {V} (k k' : string) (v : V) (d : list (string * V)) :
  dict_lookup k (dict_set k' v d) = if String.eqb k k' then Some v else dict_lookup k d.
Proof.
  induction d as [|[k0 v0] d IH]; cbn [dict_set dict_lookup].
  - reflexivity.
  - destruct (String.eqb_spec k' k0) as [->|Hne]; cbn [dict_lookup].
    + by destruct (String.eqb k k0).
    + rewrite IH. destruct (String.eqb_spec k k0) as [->|Hk]; [|reflexivity].
      destruct (String.eqb_spec k0 k'); [congruence | reflexivity].
Qed.

Lemma dict_set_keys {V} (k : string) (v : V) (d : list (string * V)) (x : string) :
  In x (map fst (dict_set k v d)) <-> x = k \/ In x (map fst d).
Proof.
  induction d as [|[k0 v0] d IH]; cbn [dict_set map fst In].
  - intuition.
  - destruct (String.eqb_spec k k0) as [->|Hne]; cbn [map fst In]; [intuition|].
    rewrite IH. intuition.
Qed.

Lemma dict_set_NoDup {V} (k : string) (v : V) (d : list (string * V)) :
  NoDup (map fst d) -> NoDup (map fst (dict_set k v d)).
Proof.
  induction d as [|[k0 v0] d IH]; cbn [dict_set map fst]; intros Hnd.
  - repeat constructor. by intros H%list_elem_of_In.
  - apply NoDup_cons in Hnd as [Hk0 Hnd].
    destruct (String.eqb_spec k k0) as [->|Hne]; cbn [map fst].
    + by apply NoDup_cons.
    + apply NoDup_cons. split; [|by apply IH].
      rewrite list_elem_of_In, dict_set_keys. rewrite list_elem_of_In in Hk0.
      intros [-> | H]; [congruence | contradiction].
Qed.

(** The dictionary built from the rows, on top of the entries [d0]. *)
Lemma geo_dict_of_spec (rows : list (list string)) :
  forall d0 d,
    geo_dict_of rows d0 = Ok d ->
    (NoDup (map fst d0) -> NoDup (map fst d))
    /\ (forall k, dict_lookup k d =
                  match last_row k rows with
                  | Some names => Some names
                  | None => dict_lookup k d0
                  end).
Proof.
  induction rows as [|row rows IH]; intros d0 d Hd.
  - injection Hd as <-. by split.
  - destruct row as [|key names]; [discriminate|]. cbn [geo_dict_of] in Hd.
    apply IH in Hd as [Hnd Hlook]. split.
    + intros H. by apply Hnd, dict_set_NoDup.
    + intros k. rewrite Hlook. cbn [last_row].
      destruct (last_row k rows); [reflexivity|]. rewrite dict_lookup_set.
      by destruct (String.eqb k key).
Qed.

Lemma geo_dict_of_is_ok (rows : list (list string)) :
  forall d0,
    (forallb is_row rows = true -> exists d, geo_dict_of rows d0 = Ok d)
    /\ (forallb is_row rows = false -> geo_dict_of rows d0 = Raise IndexError).
Proof.
  induction rows as [|row rows IH]; intros d0.
  - split; [by exists d0 | discriminate].
  - destruct row as [|key names]; cbn [forallb is_row andb geo_dict_of].
    + split; [discriminate | reflexivity].
    + apply IH.
Qed.

Lemma dict_lookup_in {V} (k : string) (v : V) (d : list (string * V)) :
  NoDup (map fst d) -> In (k, v) d <-> dict_lookup k d = Some v.
Proof.
  induction d as [|[k0 v0] d IH]; cbn [map fst dict_lookup In]; intros Hnd.
  - split; [intros [] | discriminate].
  - apply NoDup_cons in Hnd as [Hk0 Hnd]. rewrite list_elem_of_In in Hk0.
    destruct (String.eqb_spec k k0) as [->|Hne].
    + split.
      * intros [[= <-] | Hin]; [reflexivity|]. exfalso. apply Hk0.
        change k0 with (fst (k0, v)). by apply in_map.
      * intros [= <-]. by left.
    + rewrite <- (IH Hnd). split; [intros [[= Hk _] | H]; [congruence | exact H] | by right].
Qed.

(** X16.  The dictionary read from a gazetteer table has one entry per
    aggregation key, holding the names of the last row that starts with the
    key: rows that repeat a key replace the names of the earlier row, they
    do not add to them.  The names the location parser will match are the
    names of those last rows only. *)
Theorem geo_table_last_row_wins (fs : filesystem) (p : Path) (f : file)
    (sep : ascii) (comment : string) (d : list (string * list string))
    (Hfile : is_file fs p = Some f)
    (Hread : read_geo_table fs p sep comment = Ok d) :
  NoDup (map fst d)
  /\ (forall k, dict_lookup k d = last_row k (table_rows sep comment (read_text f)))
  /\ (forall name,
        In name (all_geo_names d) <->
        exists k names,
          last_row k (table_rows sep comment (read_text f)) = Some names /\ In name names).
Proof.
  unfold read_geo_table in Hread. rewrite Hfile in Hread.
  apply geo_dict_of_spec in Hread as [Hnd Hlook].
  specialize (Hnd (NoDup_nil_2)).
  assert (Hlook' : forall k, dict_lookup k d
                             = last_row k (table_rows sep comment (read_text f))).
  { intros k. rewrite Hlook. unfold table_rows. by destruct (last_row k _). }
  split; [exact Hnd|]. split; [exact Hlook'|].
  intros name. unfold all_geo_names. rewrite in_flat_map. split.
  - intros ([k names] & Hin & Hname). exists k, names.
    rewrite <- Hlook'. split; [by apply dict_lookup_in | exact Hname].
  - intros (k & names & Hrow & Hname). exists (k, names).
    split; [|exact Hname]. apply dict_lookup_in; [exact Hnd|]. by rewrite Hlook'.
Qed.

Lemma geo_table_last_row_wins_witness :
  read_geo_table fs_table ["data"; "geo_info.csv"] "," "#" = Ok repeated_key_dict
  /\ dict_lookup "LU" repeated_key_dict = Some ["Letzebuerg"]
  /\ dict_lookup "LU" repeated_key_dict
     = last_row "LU" (table_rows "," "#" repeated_key_table).
Proof.
  assert (Hread : read_geo_table fs_table ["data"; "geo_info.csv"] "," "#"
                  = Ok repeated_key_dict) by (vm_compute; reflexivity).
  split; [exact Hread|]. split; [reflexivity|].
  exact (proj1 (proj2 (geo_table_last_row_wins fs_table ["data"; "geo_info.csv"]
                         (mkFile repeated_key_table (Malformed [])) "," "#"
                         repeated_key_dict eq_refl Hread)) "LU").
Defined.

(** X17.  Reading a table succeeds exactly when every line that is neither
    a comment nor empty keeps at least one field; a line made of separators
    only raises [IndexError] for the whole table. *)
Theorem geo_table_separator_line_raises (fs : filesystem) (p : Path) (f : file)
    (sep : ascii) (comment : string)
    (Hfile : is_file fs p = Some f) :
  is_ok (read_geo_table fs p sep comment)
  = forallb is_row (table_rows sep comment (read_text f))
  /\ (forallb is_row (table_rows sep comment (read_text f)) = false ->
      read_geo_table fs p sep comment = Raise IndexError).
Proof.
  unfold read_geo_table. rewrite Hfile. fold (table_rows sep comment (read_text f)).
  destruct (geo_dict_of_is_ok (table_rows sep comment (read_text f)) []) as [Hok Hfail].
  destruct (forallb is_row (table_rows sep comment (read_text f))).
  - destruct (Hok eq_refl) as [d ->]. by split.
  - rewrite (Hfail eq_refl). by split.
Qed.

Lemma geo_table_separator_line_raises_witness :
  table_rows "," "#" ("LU,Luxembourg" +:+ String "010" ",,") = [["LU"; "Luxembourg"]; []]
  /\ read_geo_table fs_table ["data"; "broken.csv"] "," "#" = Raise IndexError.
Proof.
  split; [vm_compute; reflexivity|].
  apply (proj2 (geo_table_separator_line_raises fs_table ["data"; "broken.csv"]
                  (mkFile ("LU,Luxembourg" +:+ String "010" ",,") (Malformed []))
                  "," "#" eq_refl)).
  vm_compute. reflexivity.
Defined.

(** ** Titles *)

Lemma lower_app (a b : string) : Str.lower (a +:+ b) = Str.lower a +:+ Str.lower b.
Proof. induction a as [|c a IH]; [reflexivity|]. rewrite append_cons. cbn. by rewrite IH. Qed.

(** X18.  An item whose title mentions [CFSP], in any mix of upper and lower
    case and anywhere in the title, is on foreign and security policy,
    whatever its file name, classification code and authors. *)
Theorem title_mentioning_cfsp_qualifies (it : EurLexItem) (pre w post : string)
    (Htitle : title (meta it) = pre +:+ w +:+ post)
    (Hword : Str.lower w = "cfsp") :
  is_cfsp it = true.
Proof.
  unfold is_cfsp. rewrite flag_loop.
  assert (Hcontains : Str.contains "cfsp" (Str.lower (title (meta it))) = true).
  { apply contains_spec. exists (Str.lower pre), (Str.lower post).
    by rewrite Htitle, !lower_app, Hword. }
  rewrite Hcontains. by destruct (bool_decide (com (meta it) = Some "CFSP")).
Qed.

Lemma title_mentioning_cfsp_qualifies_witness :
  is_cfsp (mkItem (mkMeta ["a.doc.xml"] [] None None None
                          "Council Decision 2011/100/Cfsp of 13 April" None [])
                  None None) = true.
Proof.
  apply (title_mentioning_cfsp_qualifies _ "Council Decision 2011/100/" "Cfsp" " of 13 April");
    reflexivity.
Defined.

(** ** Listings *)

(** X19.  A manifest with a blank line aborts the load.  The blank line
    becomes the path of the current directory, which is not a file, so the
    metadata constructor raises for it and the exception leaves the dataset
    constructor. *)
Theorem manifest_blank_line_aborts (P : Platform) (fs : filesystem) (root : Path)
    (f : file) (tokenize parse_legal_bases parse_locations : bool) (l : string)
    (Hroot : fs_lookup fs root = Some (File f))
    (Hline : In l (Text.readlines (read_text f)))
    (Hblank : Text.strip l = "")
    (Hcwd : is_file fs [] = None) :
  exists e, EurLexDataset_init fs root tokenize parse_legal_bases parse_locations = Raise e.
Proof.
  unfold EurLexDataset_init, _list_meta_files. rewrite Hroot. cbn [bind].
  destruct (if parse_locations then _ else _) as [lp|e0]; [|by exists e0].
  cbn [bind].
  set (files := map (fun l0 => Pathlib.of_string (Text.strip l0)) (Text.readlines (read_text f))).
  assert (Hin : In [] files).
  { apply in_map_iff. exists l. split; [by rewrite Hblank | exact Hline]. }
  assert (Hfail : EurLexMetaFile_init fs (Some []) = Raise OSError).
  { unfold EurLexMetaFile_init, EurLexFile_init. by rewrite Hcwd. }
  destruct (load_items_raises fs tokenize parse_legal_bases lp files [] OSError Hin Hfail [])
    as [e' ->].
  by exists e'.
Qed.

Lemma manifest_blank_line_aborts_witness :
  In "" (Text.readlines
           ("corpus/L_2011100EN.01000101.doc.xml" +:+ String "010"
            ("" +:+ String "010" "corpus/L_2011200EN.01000101.doc.xml")))
  /\ exists e, EurLexDataset_init (P := demo_platform) fs_manifest ["list.txt"]
                 false false false = Raise e.
Proof.
  assert (Hline : In "" (Text.readlines
            ("corpus/L_2011100EN.01000101.doc.xml" +:+ String "010"
             ("" +:+ String "010" "corpus/L_2011200EN.01000101.doc.xml"))))
    by (right; left; reflexivity).
  split; [exact Hline|].
  exact (manifest_blank_line_aborts demo_platform fs_manifest ["list.txt"] _
           false false false "" eq_refl Hline eq_refl eq_refl).
Defined.

(** ** Directory listings *)

Lemma list_ascii_app (a b : string) :
  list_ascii_of_string (a +:+ b) = list_ascii_of_string a ++ list_ascii_of_string b.
Proof. induction a as [|c a IH]; [reflexivity|]. rewrite append_cons. cbn. by rewrite IH. Qed.

Lemma string_of_list_app (l1 l2 : list ascii) :
  string_of_list_ascii (l1 ++ l2) = string_of_list_ascii l1 +:+ string_of_list_ascii l2.
Proof. induction l1 as [|c l1 IH]; [reflexivity|]. cbn. by rewrite IH. Qed.

Lemma Text_rev_app (a b : string) : Text.rev (a +:+ b) = Text.rev b +:+ Text.rev a.
Proof. unfold Text.rev. by rewrite list_ascii_app, rev_app_distr, string_of_list_app. Qed.

Lemma Text_rev_involutive (s : string) : Text.rev (Text.rev s) = s.
Proof.
  unfold Text.rev.
  by rewrite list_ascii_of_string_of_list_ascii, rev_involutive, string_of_list_ascii_of_string.
Qed.

Lemma endswith_spec (suffix s : string) :
  Text.endswith suffix s = true <-> exists pre, s = pre +:+ suffix.
Proof.
  unfold Text.endswith. rewrite startswith_spec. split.
  - intros (post & H). exists (Text.rev post). apply (f_equal Text.rev) in H.
    by rewrite Text_rev_involutive, Text_rev_app, Text_rev_involutive in H.
  - intros (pre & ->). exists (Text.rev pre). apply Text_rev_app.
Qed.

Lemma strictly_under_spec (root : Path) :
  forall p, strictly_under root p = true <-> exists rest, rest <> [] /\ p = root ++ rest.
Proof.
  induction root as [|r root IH]; intros [|c p]; cbn [strictly_under app].
  - split; [discriminate|]. by intros ([|] & Hne & H).
  - split; [|done]. intros _. by exists (c :: p).
  - split; [discriminate|]. by intros (rest & _ & H).
  - rewrite andb_true_iff, String.eqb_eq, IH. split.
    + intros (-> & rest & Hne & ->). by exists rest.
    + intros (rest & Hne & [= -> ->]). split; [done|]. by exists rest.
Qed.



(** ** Tokens *)

Section TokenizerFacts.

Variable word_tokenize : string -> list string.
Variable stopwords : list string.

Lemma filter_sublist {A} (f : A -> bool) (l : list A) : sublist (List.filter f l) l.
Proof.
  induction l as [|x l IH]; cbn [List.filter]; [constructor|].
  destruct (f x); by constructor.
Qed.

Lemma is_stopword_spec (t : string) : is_stopword stopwords t = true <-> In t stopwords.
Proof.
  unfold is_stopword. rewrite existsb_exists. split.
  - intros (x & Hin & Heq). apply String.eqb_eq in Heq. by subst.
  - intros Hin. exists t. split; [exact Hin | apply String.eqb_refl].
Qed.

Lemma _is_valid_spec (tk : Tokenizer) (t : string) :
  _is_valid stopwords tk t = true <->
  (check_is_alpha tk = true -> isalpha t = true)
  /\ (filter_stopwords tk = true -> ~ In t stopwords).
Proof.
  unfold _is_valid. rewrite <- is_stopword_spec.
  destruct (check_is_alpha tk), (filter_stopwords tk), (isalpha t),
    (is_stopword stopwords t); cbn; split; try done; try (intros [H1 H2]; auto).
  all: try (exfalso; by apply H2). all: try (by discriminate (H1 eq_refl)).
Qed.

End TokenizerFacts.

(** X21.  The tokens returned are tokens of the text (lowered first when
    [to_lower] is set), in their order and with their repetitions; a token
    is dropped exactly when the alphabetic check is on and it is not made
    of letters only, or the stopword filter is on and it is a stopword. *)
Theorem tokens_are_the_valid_tokens_in_order (word_tokenize : string -> list string)
    (stopwords : list string) (tk : Tokenizer) (raw_text : string) :
  let text := if to_lower tk then Str.lower raw_text else raw_text in
  let tokens := Tokenizer_call word_tokenize stopwords tk raw_text in
  sublist tokens (word_tokenize text)
  /\ (forall t,
        In t tokens <->
        In t (word_tokenize text)
        /\ (check_is_alpha tk = true -> isalpha t = true)
        /\ (filter_stopwords tk = true -> ~ In t stopwords))
  /\ (check_is_alpha tk = false -> filter_stopwords tk = false ->
      tokens = word_tokenize text).
Proof.
  cbv zeta. unfold Tokenizer_call. split; [apply filter_sublist|]. split.
  - intros t. by rewrite filter_In, _is_valid_spec.
  - intros Ha Hs. apply forallb_filter_id. apply forallb_forall. intros t _.
    unfold _is_valid. by rewrite Ha, Hs.
Qed.

(** ** The location parser, from its table *)

(** X22.  The location parser built from a table file holds one matcher per
    distinct name of the last rows of the table; every matcher is
    case-insensitive and its pattern is the name, after the curated
    overrides, between two word boundaries. *)
Theorem location_parser_matchers (P : Platform) (fs : filesystem) (p : Path) (f : file)
    (lp : list GeoRegex)
    (Hfile : is_file fs p = Some f)
    (Hinit : LocationParser_init fs p = Ok lp) :
  NoDup (map plain_name lp)
  /\ (forall name,
        In name (map plain_name lp) <->
        exists k names,
          last_row k (table_rows "," "#" (read_text f)) = Some names /\ In name names)
  /\ (forall g, In g lp ->
        pattern g = "\b" +:+ _preprocess (plain_name g) +:+ "\b" /\ flags g = true).
Proof.
  unfold LocationParser_init, read_geo_table in Hinit. rewrite Hfile in Hinit.
  destruct (geo_dict_of _ []) as [d|] eqn:Hd; [|discriminate]. cbn [bind] in Hinit.
  apply geo_dict_of_spec in Hd as [Hnd Hlook]. specialize (Hnd (NoDup_nil_2)).
  assert (Hlook' : forall k, dict_lookup k d = last_row k (table_rows "," "#" (read_text f))).
  { intros k. rewrite Hlook. unfold table_rows. by destruct (last_row k _). }
  unfold LocationParser_of_dict in Hinit.
  assert (Hpat : forall names gs, compile_all names = Ok gs ->
            forall g, In g gs ->
              pattern g = "\b" +:+ _preprocess (plain_name g) +:+ "\b" /\ flags g = true).
  { induction names as [|n names IH]; intros gs.
    - by intros [= <-] g [].
    - cbn [compile_all]. unfold GeoRegex_init at 1.
      destruct (re_compile _ _) as [r|]; [|discriminate]. cbn [bind].
      destruct (compile_all names) as [gs'|]; [|discriminate]. cbn [bind].
      intros [= <-] g [<- | Hin]; [by split | by apply (IH gs')]. }
  split; [|split].
  - rewrite (compile_all_names _ _ Hinit). apply NoDup_elements.
  - intros name. rewrite (compile_all_names _ _ Hinit).
    rewrite <- list_elem_of_In, elem_of_elements, elem_of_list_to_set, list_elem_of_In.
    unfold all_geo_names. rewrite in_flat_map. split.
    + intros ([k names] & Hin & Hname). exists k, names.
      rewrite <- Hlook'. split; [by apply dict_lookup_in | exact Hname].
    + intros (k & names & Hrow & Hname). exists (k, names).
      split; [|exact Hname]. apply dict_lookup_in; [exact Hnd|]. by rewrite Hlook'.
  - exact (Hpat _ _ Hinit).
Qed.

Lemma location_parser_matchers_witness :
  LocationParser_init (P := demo_platform) fs_table ["data"; "geo_info.csv"] = Ok table_parser
  /\ NoDup (map plain_name table_parser)
  /\ ~ In "Luxembourg" (map plain_name table_parser).
Proof.
  assert (Hinit : LocationParser_init (P := demo_platform) fs_table ["data"; "geo_info.csv"]
                  = Ok table_parser) by reflexivity.
  split; [exact Hinit|].
  split; [exact (proj1 (location_parser_matchers demo_platform fs_table
                          ["data"; "geo_info.csv"]
                          (mkFile repeated_key_table (Malformed [])) table_parser
                          eq_refl Hinit))|].
  intros [H | [H | [H | []]]]; discriminate H.
Defined.
